(** * KrakenGate: radio <-> Mumble audio bridge and PTT gate

    A shallow embedding of [mumble_bridge.py] and [remote_trx.py].

    - Python objects that the code tests with [isinstance] are an inductive
      type; [bytes] and [bytearray] contents are lists of bytes.
    - [queue.Queue(maxsize=200)] is a record of its bound and its items;
      [put_nowait] and [get] return [None] where Python raises
      [queue.Full] / [queue.Empty].
    - Mutable attributes of [MumbleBridge] and the module globals of
      [remote_trx] are records threaded through every operation; calls on
      external collaborators (the pymumble session, the CM108 PTT line, the
      sound device, the [logging] module) are returned as lists of effects.
    - Wall-clock readings ([time.time()]) and the encoder frame duration are
      inputs, taken in [Q]. *)

From Stdlib Require Import String Strings.Byte.
From Stdlib Require Import ZArith QArith Qround List Bool Lia Lqa.
Import ListNotations.

Set Implicit Arguments.

Local Open Scope Z_scope.

(* ================================================================== *)
(** ** Python values *)

Module Py.

(** Contents of a [bytes] / [bytearray] object. *)
Definition bytes := list byte.

(** Integer dtypes of a numpy array.  Arrays of other dtypes do not occur
    on the capture path (the input stream is opened with
    [dtype="int16"]). *)
Inductive dtype := int16 | int32 | int64.

(** A numpy array: its dtype and its elements in C order. *)
Record ndarray := { nd_dtype : dtype; nd_data : list Z }.

(** The objects a caller can hand to [send_pcm]. *)
Inductive obj :=
| Ndarray (a : ndarray)
| Bytes (b : bytes)
| ByteArray (b : bytes)
| NoneObj
| Int (z : Z)
| Str (s : string).

(** [isinstance(pcm, np.ndarray)] *)
Definition is_ndarray (o : obj) : bool :=
  match o with Ndarray _ => true | _ => false end.

(** [isinstance(pcm, bytes)]; a [bytearray] is not a [bytes]. *)
Definition is_bytes (o : obj) : bool :=
  match o with Bytes _ => true | _ => false end.

(** Wrap-around of an integer into the signed 16-bit range, the C cast
    that [astype(np.int16)] performs on integer arrays. *)
Definition wrap_int16 (z : Z) : Z :=
  let u := z mod 65536 in
  if u <? 32768 then u else u - 65536.

Definition byte_of_Z (z : Z) : byte :=
  match Byte.of_N (Z.to_N (z mod 256)) with
  | Some b => b
  | None => x00
  end.

Definition Z_of_byte (b : byte) : Z := Z.of_N (Byte.to_N b).

(** Two's-complement little-endian encoding of one int16 sample. *)
Definition int16_to_bytes (z : Z) : bytes :=
  let u := z mod 65536 in
  [byte_of_Z (Z.land u 255); byte_of_Z (Z.shiftr u 8)].

(** [arr.astype(np.int16, copy=False)] on the flattened data. *)
Definition astype_int16 (a : ndarray) : ndarray :=
  {| nd_dtype := int16; nd_data := map wrap_int16 (nd_data a) |}.

Definition dtype_eqb (a b : dtype) : bool :=
  match a, b with
  | int16, int16 | int32, int32 | int64, int64 => true
  | _, _ => false
  end.

(** [arr.tobytes()] of an int16 array. *)
Definition tobytes (a : ndarray) : bytes :=
  flat_map int16_to_bytes (nd_data a).

(** [np.frombuffer(b, dtype=np.int16)]: [None] stands for the
    [ValueError] raised when the length is odd. *)
Fixpoint frombuffer_int16 (b : bytes) : option (list Z) :=
  match b with
  | [] => Some []
  | [_] => None
  | lo :: hi :: rest =>
      match frombuffer_int16 rest with
      | Some l => Some (wrap_int16 (Z_of_byte lo + 256 * Z_of_byte hi) :: l)
      | None => None
      end
  end.

(** Python's [seq[:k]] for any integer [k]: a negative bound counts from
    the end, and bounds are clamped to the sequence. *)
Definition slice_count {A} (k : Z) (l : list A) : nat :=
  let n := Z.of_nat (length l) in
  Z.to_nat (if k <? 0 then Z.max 0 (n + k) else Z.min k n).

Definition slice_to {A} (k : Z) (l : list A) : list A :=
  firstn (slice_count k l) l.

(** [del seq[:k]] *)
Definition del_slice_to {A} (k : Z) (l : list A) : list A :=
  skipn (slice_count k l) l.

End Py.

(* ================================================================== *)
(** ** [queue.Queue] *)

Module PyQueue.

Section Queue.
Variable A : Type.

Record t := mk { maxsize : Z; items : list A }.

Definition qsize (q : t) : Z := Z.of_nat (length (items q)).

(** [Queue.full()]: a bound of 0 or less means unbounded. *)
Definition full (q : t) : bool :=
  (0 <? maxsize q) && (maxsize q <=? qsize q).

(** [put_nowait(x)]; [None] is [queue.Full]. *)
Definition put_nowait (q : t) (x : A) : option t :=
  if full q then None
  else Some {| maxsize := maxsize q; items := items q ++ [x] |}.

(** [get(timeout=...)] / [get_nowait()] once the wait is over; [None] is
    [queue.Empty]. *)
Definition get (q : t) : option (A * t) :=
  match items q with
  | [] => None
  | x :: r => Some (x, {| maxsize := maxsize q; items := r |})
  end.

Definition empty (cap : Z) : t := {| maxsize := cap; items := [] |}.
End Queue.

End PyQueue.

(* ================================================================== *)
(** ** Log records

    Messages are given without the emoji that starts some of them and
    without the values interpolated into them. *)

Inductive LogLevel := DEBUG | INFO | WARNING | ERROR.

Record LogRecord := { log_level : LogLevel; log_msg : string }.

Definition log_debug (m : string) := {| log_level := DEBUG; log_msg := m |}.
Definition log_info (m : string) := {| log_level := INFO; log_msg := m |}.
Definition log_warning (m : string) := {| log_level := WARNING; log_msg := m |}.
Definition log_error (m : string) := {| log_level := ERROR; log_msg := m |}.

Definition LogRecord_eqb (a b : LogRecord) : bool :=
  match log_level a, log_level b with
  | DEBUG, DEBUG | INFO, INFO | WARNING, WARNING | ERROR, ERROR =>
      String.eqb (log_msg a) (log_msg b)
  | _, _ => false
  end.

(* ================================================================== *)
(** ** mumble_bridge.py *)

Module MumbleBridge.

Import Py.

(** Mumble's native sample rate, [_PYMUMBLE_SR]. *)
Definition _PYMUMBLE_SR : Z := 48000.

(** The mutable attributes of a [MumbleBridge] instance that the send and
    receive paths touch. *)
Record t := mk {
  _tx_q : PyQueue.t bytes;          (* radio -> Mumble *)
  _rx_q : PyQueue.t bytes;          (* Mumble -> radio *)
  _frame_bytes : option Z;          (* Optional[int] *)
  _accum : bytes;                   (* bytearray() *)
}.

(** The attributes as [__init__] leaves them. *)
Definition init : t :=
  {| _tx_q := PyQueue.empty bytes 200;
     _rx_q := PyQueue.empty bytes 200;
     _frame_bytes := None;
     _accum := [] |}.

Definition set_tx_q (b : t) (q : PyQueue.t bytes) : t :=
  {| _tx_q := q; _rx_q := _rx_q b;
     _frame_bytes := _frame_bytes b; _accum := _accum b |}.

Definition set_rx_q (b : t) (q : PyQueue.t bytes) : t :=
  {| _tx_q := _tx_q b; _rx_q := q;
     _frame_bytes := _frame_bytes b; _accum := _accum b |}.

Definition set_frame_bytes (b : t) (fb : option Z) : t :=
  {| _tx_q := _tx_q b; _rx_q := _rx_q b;
     _frame_bytes := fb; _accum := _accum b |}.

Definition set_accum (b : t) (a : bytes) : t :=
  {| _tx_q := _tx_q b; _rx_q := _rx_q b;
     _frame_bytes := _frame_bytes b; _accum := a |}.

(** The part of [send_pcm] before the enqueue: the buffer to queue, or
    [None] for the early [return] of the final [else]. *)
Definition pcm_buffer (pcm : obj) : option bytes :=
  match pcm with
  | Ndarray a =>
      let a1 := if negb (dtype_eqb (nd_dtype a) int16)
                then astype_int16 a else a in
      (* reshape(-1) leaves the C-order data as it is *)
      Some (tobytes a1)
  | Bytes b => Some b
  | _ => None
  end.

(** [send_pcm(pcm)]: the bridge afterwards and the log records emitted.
    The call never raises. *)
Definition send_pcm (b : t) (pcm : obj) : t * list LogRecord :=
  match pcm_buffer pcm with
  | None => (b, [])
  | Some buf =>
      match PyQueue.put_nowait (_tx_q b) buf with
      | Some q => (set_tx_q b q, [])
      | None => (b, [log_debug "TX queue full, dropping frame"])
      end
  end.

(** [_on_sound_received(user, soundchunk)], given [soundchunk.pcm]. *)
Definition _on_sound_received (b : t) (pcm_bytes : bytes)
  : t * list LogRecord :=
  match PyQueue.put_nowait (_rx_q b) pcm_bytes with
  | Some q => (set_rx_q b q, [])
  | None => (b, [log_debug "[MB] RX queue full, dropping frame"])
  end.

(** [get_received(timeout)] after the wait: the frame, if any. *)
Definition get_received (b : t) : option bytes * t :=
  match PyQueue.get (_rx_q b) with
  | Some (x, q) => (Some x, set_rx_q b q)
  | None => (None, b)
  end.

End MumbleBridge.

(* ------------------------------------------------------------------ *)
(** *** The sender task *)

Module TxWorker.

Import Py.
Import MumbleBridge.

(** What the bridge sees of pymumble's [sound_output]: the
    [encoder_framesize] attribute (seconds per frame; [None] until the
    encoder is initialised) and the arguments of the [add_sound] calls made
    so far, oldest first. *)
Record Session := {
  encoder_framesize : option Q;
  add_sound_calls : list bytes;
}.

Definition add_sound (s : Session) (frame : bytes) : Session :=
  {| encoder_framesize := encoder_framesize s;
     add_sound_calls := add_sound_calls s ++ [frame] |}.

(** Python's [int(x)] on a number: truncation toward zero. *)
Definition py_int (x : Q) : Z := Z.quot (Qnum x) (Zpos (Qden x)).

(** Truth value of an [Optional[int]]. *)
Definition truthy (v : option Z) : bool :=
  match v with
  | Some z => negb (z =? 0)
  | None => false
  end.

(** Truth value of an optional number. *)
Definition truthyQ (v : option Q) : bool :=
  match v with
  | Some x => negb (Qnum x =? 0)
  | None => false
  end.

(** [_compute_frame_bytes_if_ready()]: the bridge afterwards and the value
    returned. *)
Definition _compute_frame_bytes_if_ready (s : Session) (b : t)
  : t * option Z :=
  if truthy (_frame_bytes b) then (b, _frame_bytes b)
  else
    match encoder_framesize s with
    | Some fs =>
        if truthyQ (Some fs) then
          let fb := py_int (fs * inject_Z _PYMUMBLE_SR * 2 * 1)%Q in
          (set_frame_bytes b (Some fb), Some fb)
        else (b, _frame_bytes b)
    | None => (b, _frame_bytes b)
    end.

(** A local variable of a running function: not yet assigned, or bound. *)
Inductive local (A : Type) :=
| Unbound
| Bound (v : A).
Arguments Unbound {A}.

(** The sender thread between two iterations of its first loop: the bridge
    it works on, the session, and its local [frame_bytes]. *)
Record Worker := {
  w_bridge : t;
  w_session : Session;
  w_frame_bytes : local (option Z);
}.

Definition start_worker (b : t) (s : Session) : Worker :=
  {| w_bridge := b; w_session := s; w_frame_bytes := Unbound |}.

(** One iteration of [while not self._shutdown.is_set()] in [_tx_worker],
    entered with the shutdown flag clear.  Both outcomes of
    [if not frame_bytes] lead to the next test of the loop condition: the
    frame loop that follows in the source is not part of this body. *)
Definition tx_worker_iter (w : Worker) : Worker :=
  let b := w_bridge w in
  match PyQueue.get (_tx_q b) with
  | None => w                                       (* queue.Empty: continue *)
  | Some (chunk, q) =>
      (* chunk is a bytes object: chunk.tobytes() raises AttributeError and
         the handler extends the buffer with bytes(chunk) *)
      let b1 := set_accum (set_tx_q b q) (_accum b ++ chunk) in
      let '(b2, frame_bytes) :=
        _compute_frame_bytes_if_ready (w_session w) b1 in
      if negb (truthy frame_bytes) then
        {| w_bridge := b2; w_session := w_session w;
           w_frame_bytes := Bound frame_bytes |}    (* continue *)
      else
        {| w_bridge := b2; w_session := w_session w;
           w_frame_bytes := Bound frame_bytes |}
  end.

(** The loop [while len(self._accum) >= frame_bytes] that follows the first
    loop, for an integer [frame_bytes]; [None] when [fuel] iterations do not
    end it. *)
Fixpoint frame_loop (fuel : nat) (frame_bytes : Z) (accum : bytes)
  (s : Session) : option (bytes * Session) :=
  if frame_bytes <=? Z.of_nat (length accum) then
    match fuel with
    | O => None
    | S fuel' =>
        let frame := slice_to frame_bytes accum in
        let accum' := del_slice_to frame_bytes accum in
        frame_loop fuel' frame_bytes accum' (add_sound s frame)
    end
  else Some (accum, s).

(** [frames] followed by [rest] is [accum] cut into pieces of exactly
    [fb] bytes, with fewer than [fb] bytes left over. *)
Record Framed (fb : Z) (accum : bytes) (frames : list bytes) (rest : bytes)
  : Prop := {
  framed_concat : concat frames ++ rest = accum;
  framed_whole : Forall (fun f => Z.of_nat (length f) = fb) frames;
  framed_rest : Z.of_nat (length rest) < fb;
}.

(** How a call of [_tx_worker] ends once the shutdown flag is seen. *)
Inductive Exit :=
| Returned (b : t) (s : Session)
| Raised (exc : string) (b : t) (s : Session)
| Spinning.

(** The rest of [_tx_worker] after the first loop.  Comparing an [int]
    with [None] raises [TypeError]; reading a local that no iteration
    assigned raises [UnboundLocalError].  [S (length accum)] iterations end
    the frame loop whenever it ends at all (see [frame_loop_fuel] and
    [frame_loop_spins]). *)
Definition tx_worker_exit (w : Worker) : Exit :=
  let b := w_bridge w in
  match w_frame_bytes w with
  | Unbound => Raised "UnboundLocalError" b (w_session w)
  | Bound None => Raised "TypeError" b (w_session w)
  | Bound (Some fb) =>
      match frame_loop (S (length (_accum b))) fb (_accum b) (w_session w) with
      | Some (accum', s') => Returned (set_accum b accum') s'
      | None => Spinning
      end
  end.

(** What can happen between two iterations of the sender thread. *)
Inductive Event :=
| Send (pcm : obj)                 (* a caller runs send_pcm(pcm) *)
| SoundReceived (pcm : bytes)      (* pymumble runs _on_sound_received *)
| GetReceived                      (* a consumer runs get_received() *)
| Encoder (fs : option Q)          (* sound_output.encoder_framesize changes *)
| Iterate.                         (* the sender thread runs one iteration *)

(** The bridge with its sender thread, and the log records emitted. *)
Record System := {
  sys_worker : Worker;
  sys_log : list LogRecord;
}.

Definition boot : System :=
  {| sys_worker :=
       start_worker MumbleBridge.init
         {| encoder_framesize := None; add_sound_calls := [] |};
     sys_log := [] |}.

Definition with_bridge (w : Worker) (b : t) : Worker :=
  {| w_bridge := b; w_session := w_session w;
     w_frame_bytes := w_frame_bytes w |}.

Definition step (sys : System) (e : Event) : System :=
  let w := sys_worker sys in
  match e with
  | Send pcm =>
      let '(b, l) := send_pcm (w_bridge w) pcm in
      {| sys_worker := with_bridge w b; sys_log := sys_log sys ++ l |}
  | SoundReceived pcm =>
      let '(b, l) := _on_sound_received (w_bridge w) pcm in
      {| sys_worker := with_bridge w b; sys_log := sys_log sys ++ l |}
  | GetReceived =>
      {| sys_worker := with_bridge w (snd (get_received (w_bridge w)));
         sys_log := sys_log sys |}
  | Encoder fs =>
      {| sys_worker :=
           {| w_bridge := w_bridge w;
              w_session := {| encoder_framesize := fs;
                              add_sound_calls :=
                                add_sound_calls (w_session w) |};
              w_frame_bytes := w_frame_bytes w |};
         sys_log := sys_log sys |}
  | Iterate =>
      {| sys_worker := tx_worker_iter w; sys_log := sys_log sys |}
  end.

Definition run (sys : System) (evs : list Event) : System :=
  fold_left step evs sys.

(** The chunks the sender thread takes from the queue and appends to
    [_accum] along [evs], oldest first. *)
Fixpoint pushed (sys : System) (evs : list Event) : list bytes :=
  match evs with
  | [] => []
  | e :: r =>
      match e, PyQueue.get (_tx_q (w_bridge (sys_worker sys))) with
      | Iterate, Some (chunk, _) => chunk :: pushed (step sys e) r
      | _, _ => pushed (step sys e) r
      end
  end.

(** The [add_sound] calls so far. *)
Definition sent (sys : System) : list bytes :=
  add_sound_calls (w_session (sys_worker sys)).

(** A whole call of [_tx_worker()]: the first loop runs while [evs] happen,
    then the shutdown flag is seen and the rest of the body runs. *)
Definition _tx_worker (sys : System) (evs : list Event) : Exit :=
  tx_worker_exit (sys_worker (run sys evs)).

(** One capture block as [audio_rx_loop] hands it to [send_pcm]:
    [CHUNK] = 1024 samples of int16. *)
Definition capture_block : obj :=
  Ndarray {| nd_dtype := int16; nd_data := repeat 0 1024 |}.

(** The encoder comes up with 20 ms frames, a capture block is sent, and
    the sender thread takes it from the queue. *)
Definition frame_ready_events : list Event :=
  [Encoder (Some (1 # 50)%Q); Send capture_block; Iterate].

(** The record logged when [send_pcm] finds the queue full, and the one
    logged by [_on_sound_received]. *)
Definition tx_drop : LogRecord := log_debug "TX queue full, dropping frame".
Definition rx_drop : LogRecord :=
  log_debug "[MB] RX queue full, dropping frame".

(** The bridge after 200 two-byte frames were sent and none was taken. *)
Definition full_bridge : t :=
  w_bridge (sys_worker (run boot (repeat (Send (Bytes [x00; x00])) 200))).

(** Both queues carry the bound of [__init__] and respect it. *)
Definition queues_bounded (b : t) : Prop :=
  PyQueue.maxsize (_tx_q b) = 200 /\ PyQueue.qsize (_tx_q b) <= 200
  /\ PyQueue.maxsize (_rx_q b) = 200 /\ PyQueue.qsize (_rx_q b) <= 200.

End TxWorker.

(* ================================================================== *)
(** ** remote_trx.py *)

Module RemoteTrx.

Import Py.

Local Open Scope Q_scope.

(** The module globals that the transmit gate and the playback loop share.
    [tx_thread_alive] is [tx_thread and tx_thread.is_alive()]. *)
Record Globals := {
  is_transmitting : bool;
  last_key_time : Q;
  tx_thread_alive : bool;
  current_tx_dbfs : Q;
}.

(** The globals as the module body leaves them. *)
Definition init : Globals :=
  {| is_transmitting := false; last_key_time := 0;
     tx_thread_alive := false; current_tx_dbfs := -(100) |}.

Definition set_is_transmitting (g : Globals) (v : bool) : Globals :=
  {| is_transmitting := v; last_key_time := last_key_time g;
     tx_thread_alive := tx_thread_alive g;
     current_tx_dbfs := current_tx_dbfs g |}.

Definition set_last_key_time (g : Globals) (v : Q) : Globals :=
  {| is_transmitting := is_transmitting g; last_key_time := v;
     tx_thread_alive := tx_thread_alive g;
     current_tx_dbfs := current_tx_dbfs g |}.

Definition set_tx_thread_alive (g : Globals) (v : bool) : Globals :=
  {| is_transmitting := is_transmitting g; last_key_time := last_key_time g;
     tx_thread_alive := v; current_tx_dbfs := current_tx_dbfs g |}.

Definition set_current_tx_dbfs (g : Globals) (v : Q) : Globals :=
  {| is_transmitting := is_transmitting g; last_key_time := last_key_time g;
     tx_thread_alive := tx_thread_alive g; current_tx_dbfs := v |}.

(** Calls that leave the module: the PTT line, thread creation, logging. *)
Inductive Effect :=
| PttKey                       (* ptt.key() *)
| PttUnkey                     (* ptt.unkey() *)
| StartPlayLoop                (* threading.Thread(target=play_loop).start() *)
| Log (r : LogRecord).

Definition Effect_eqb (a b : Effect) : bool :=
  match a, b with
  | PttKey, PttKey | PttUnkey, PttUnkey | StartPlayLoop, StartPlayLoop => true
  | Log r, Log r' => LogRecord_eqb r r'
  | _, _ => false
  end.

(** The body of [audio_tx_loop] after the definition of [play_loop]. *)
Definition audio_tx_loop (g : Globals) : Globals * list Effect :=
  if tx_thread_alive g then (g, [])
  else (set_tx_thread_alive g true, [StartPlayLoop]).

(** [start_tx()], run as one critical section of [tx_lock].  [now] is the
    reading of [time.time()]; [hw_ok] tells whether [ptt.key()] returns
    (otherwise it raises and the handler logs the failure). *)
Definition start_tx (now : Q) (hw_ok : bool) (g : Globals)
  : Globals * list Effect :=
  let '(g1, eff) :=
    if negb (is_transmitting g) then
      let e1 := [Log (log_info "TX ON"); PttKey]
                ++ (if hw_ok then [] else [Log (log_error "PTT key() failed")]) in
      let g1 := set_is_transmitting g true in
      let '(g2, e2) := audio_tx_loop g1 in
      (g2, e1 ++ e2)
    else (g, []) in
  (set_last_key_time g1 now, eff).

(** [_worker] of [stop_tx_after_tail] from the moment the thread wakes from
    [time.sleep(TAIL_HANG)]: its critical section.  [now] is the reading of
    [time.time()] there. *)
Definition _worker (TAIL_HANG now : Q) (hw_ok : bool) (g : Globals)
  : Globals * list Effect :=
  if is_transmitting g && Qle_bool TAIL_HANG (now - last_key_time g) then
    (set_is_transmitting g false,
     [Log (log_info "TX OFF (tail hang)"); PttUnkey]
     ++ (if hw_ok then [] else [Log (log_error "PTT unkey() failed")]))
  else (g, []).

(* ------------------------------------------------------------------ *)
(** *** Requests over time *)

(** The two control requests.  [http_ptt_on] runs [start_tx];
    [http_ptt_off] runs [stop_tx_after_tail], whose thread sleeps for
    [TAIL_HANG] and wakes [late] seconds after that ([time.sleep] never
    returns early). *)
Inductive Request :=
| http_ptt_on
| http_ptt_off (late : Q).

(** What runs under [tx_lock] at a given instant. *)
Inductive Action :=
| RunStartTx
| RunTailCheck.

(** [stop_tx_after_tail()] called at time [t]: it only starts the thread of
    [_worker], whose critical section runs at [t + TAIL_HANG + late]. *)
Definition stop_tx_after_tail (TAIL_HANG t late : Q) : Q * Action :=
  (t + TAIL_HANG + late, RunTailCheck).

(** Insertion by time; among equal times the inserted action goes first. *)
Fixpoint insert_action (t : Q) (a : Action) (l : list (Q * Action))
  : list (Q * Action) :=
  match l with
  | [] => [(t, a)]
  | (t', a') :: r =>
      if Qle_bool t t' then (t, a) :: l
      else (t', a') :: insert_action t a r
  end.

(** The critical sections that a list of timed requests leads to, in the
    order of their times. *)
Fixpoint agenda (TAIL_HANG : Q) (reqs : list (Q * Request))
  : list (Q * Action) :=
  match reqs with
  | [] => []
  | (t, http_ptt_on) :: r =>
      insert_action t RunStartTx (agenda TAIL_HANG r)
  | (t, http_ptt_off late) :: r =>
      let '(t', a) := stop_tx_after_tail TAIL_HANG t late in
      insert_action t' a (agenda TAIL_HANG r)
  end.

Section Timeline.

Variable TAIL_HANG : Q.
(** Whether the PTT call made at a given instant returns. *)
Variable hw_ok : Q -> bool.

Definition act (ta : Q * Action) (g : Globals) : Globals * list Effect :=
  match snd ta with
  | RunStartTx => start_tx (fst ta) (hw_ok (fst ta)) g
  | RunTailCheck => _worker TAIL_HANG (fst ta) (hw_ok (fst ta)) g
  end.

(** Runs the actions in order; effects are stamped with their time. *)
Fixpoint play (l : list (Q * Action)) (g : Globals)
  : Globals * list (Q * Effect) :=
  match l with
  | [] => (g, [])
  | ta :: r =>
      let '(g1, e1) := act ta g in
      let '(g2, e2) := play r g1 in
      (g2, map (fun e => (fst ta, e)) e1 ++ e2)
  end.

(** The globals at time [t]: every action due at or before [t] has run. *)
Definition globals_at (reqs : list (Q * Request)) (t : Q) : Globals :=
  fst (play (filter (fun ta => Qle_bool (fst ta) t) (agenda TAIL_HANG reqs))
         init).

(** The instants at which [ptt.unkey()] is called. *)
Definition unkey_times (reqs : list (Q * Request)) : list Q :=
  map fst
    (filter (fun te => Effect_eqb (snd te) PttUnkey)
       (snd (play (agenda TAIL_HANG reqs) init))).

(** The instants at which [ptt.key()] is called. *)
Definition key_times (reqs : list (Q * Request)) : list Q :=
  map fst
    (filter (fun te => Effect_eqb (snd te) PttKey)
       (snd (play (agenda TAIL_HANG reqs) init))).

End Timeline.

(* ------------------------------------------------------------------ *)
(** *** The playback loop *)

(** Every name bound at module level of [remote_trx.py] once [main] has
    called [connect_mumble], then the name bound in [audio_tx_loop] and the
    locals of [play_loop]. *)
Definition names_in_scope : list string :=
  ["os"; "time"; "logging"; "threading"; "np"; "sd"; "Flask"; "jsonify";
   "Response"; "Mumble"; "load_dotenv"; "CM108PTT"; "MumbleBridge";
   "MUMBLE_SERVER"; "MUMBLE_USERNAME"; "MUMBLE_PASSWORD"; "MUMBLE_CHANNEL";
   "MUMBLE_PORT"; "PTT_DEVICE"; "PTT_PIN"; "INPUT_NAME"; "OUTPUT_NAME";
   "TAIL_HANG"; "HTTP_PORT"; "SAMPLE_RATE"; "CHUNK"; "app"; "ptt"; "mumble";
   "is_transmitting"; "last_key_time"; "rx_stream"; "tx_thread"; "tx_lock";
   "current_rx_dbfs"; "current_tx_dbfs"; "_dbfs_from_int16";
   "find_device_index"; "input_index"; "output_index"; "audio_rx_loop";
   "audio_tx_loop"; "start_tx"; "stop_tx_after_tail"; "http_ptt_on";
   "http_ptt_off"; "http_status"; "index"; "on_mumble_ready";
   "connect_mumble"; "main"; "mumble_bridge";
   "play_loop";
   "stream"; "tx_active"; "pcm_bytes"; "arr"]%string.

Definition name_bound (n : string) : bool :=
  existsb (String.eqb n) names_in_scope.

(** The playback thread between two iterations: the globals, the bridge it
    reads from, the blocks handed to [stream.write] (oldest first) and
    whether the output stream is still open. *)
Record Player := {
  pl_globals : Globals;
  pl_bridge : MumbleBridge.t;
  pl_written : list (list Z);
  pl_stream_open : bool;
}.

(** How an iteration of [while True] in [play_loop] ends. *)
Inductive Flow :=
| Next
| Break
| Raise (exc : string).

(** The [finally] clause, after which the thread is no longer alive. *)
Definition close_stream (p : Player) : Player :=
  {| pl_globals := set_tx_thread_alive (pl_globals p) false;
     pl_bridge := pl_bridge p;
     pl_written := pl_written p;
     pl_stream_open := false |}.

Definition with_bridge (p : Player) (b : MumbleBridge.t) : Player :=
  {| pl_globals := pl_globals p; pl_bridge := b;
     pl_written := pl_written p;
     pl_stream_open := pl_stream_open p |}.

Definition write (p : Player) (g : Globals) (b : MumbleBridge.t)
  (block : list Z) : Player :=
  {| pl_globals := g; pl_bridge := b;
     pl_written := pl_written p ++ [block];
     pl_stream_open := pl_stream_open p |}.

(** One iteration of the loop in [play_loop].  [CHUNK] is the configured
    block size.  In the branch that received a frame, the statement after
    [stream.write] evaluates the name [audio], which no scope binds
    ([name_bound "audio"] is [false]), so it raises [NameError] before
    [_dbfs_from_int16] is called and before [current_tx_dbfs] is assigned.
    An odd-length frame makes [np.frombuffer] raise [ValueError] before
    anything is written. *)
Definition play_loop_iter (CHUNK : Z) (p : Player) : Player * Flow :=
  let g := pl_globals p in
  let tx_active := is_transmitting g in
  if negb tx_active then (close_stream p, Break)
  else
    let '(pcm_bytes, b) := MumbleBridge.get_received (pl_bridge p) in
    match pcm_bytes with
    | Some ((_ :: _) as data) =>
        match frombuffer_int16 data with
        | None => (close_stream (with_bridge p b), Raise "ValueError")
        | Some arr =>
            (close_stream (write p g b arr), Raise "NameError")
        end
    | _ =>
        let g1 := set_current_tx_dbfs g (-(100)) in
        (write p g1 b (repeat 0%Z (Z.to_nat CHUNK)), Next)
    end.

(* ------------------------------------------------------------------ *)
(** *** The status snapshot and the threads that share the gate *)

(** The two fields of the [/status] reply that come from the gate. *)
Record Snapshot := {
  tx : bool;
  last_key_age : option Q;
}.

(** Truth value of a float. *)
Definition nonzero (x : Q) : bool := negb (Qnum x =? 0)%Z.

(** [http_status()] when no other thread runs during the call. *)
Definition http_status (now : Q) (g : Globals) : Snapshot :=
  {| tx := is_transmitting g;
     last_key_age :=
       if nonzero (last_key_time g) then Some (now - last_key_time g)
       else None |}.

(** Program points of [http_status]; each constructor names the step about
    to run and carries the locals assigned so far. *)
Inductive StatusPc :=
| st_cond                              (* the condition [last_key_time] *)
| st_age                               (* [time.time() - last_key_time] *)
| st_lock (age : option Q)             (* entering [with tx_lock] *)
| st_read (age : option Q)             (* [tx = is_transmitting] *)
| st_unlock (age : option Q) (v : bool)  (* leaving [with tx_lock] *)
| st_done (s : Snapshot).

(** Program points of [start_tx]. *)
Inductive StartPc :=
| k_lock | k_test | k_key | k_set | k_loop | k_stamp | k_unlock | k_done.

(** Program points of [_worker] after its sleep. *)
Inductive TailPc :=
| w_lock | w_test | w_unkey | w_clear | w_unlock | w_done.

Inductive Thread :=
| Status (now : Q) (pc : StatusPc)
| StartTx (now : Q) (hw_ok : bool) (pc : StartPc)
| TailWorker (TAIL_HANG now : Q) (hw_ok : bool) (pc : TailPc).

(** The globals, the owner of [tx_lock] if it is held, the threads and the
    effects so far. *)
Record Config := {
  cfg_globals : Globals;
  cfg_lock : option nat;
  cfg_threads : list Thread;
  cfg_effects : list Effect;
}.

Definition lock_free (c : Config) : bool :=
  match cfg_lock c with None => true | Some _ => false end.

(** One atomic step of thread [i]: the thread, the globals, the lock and
    the effects afterwards; [None] when the thread waits for the lock or
    has finished. *)
Definition thread_step (i : nat) (th : Thread) (g : Globals)
  (lock : option nat)
  : option (Thread * Globals * option nat * list Effect) :=
  match th with
  | Status now pc =>
      match pc with
      | st_cond =>
          if nonzero (last_key_time g)
          then Some (Status now st_age, g, lock, [])
          else Some (Status now (st_lock None), g, lock, [])
      | st_age =>
          Some (Status now (st_lock (Some (now - last_key_time g))),
                g, lock, [])
      | st_lock age =>
          match lock with
          | None => Some (Status now (st_read age), g, Some i, [])
          | Some _ => None
          end
      | st_read age =>
          Some (Status now (st_unlock age (is_transmitting g)), g, lock, [])
      | st_unlock age v =>
          Some (Status now (st_done {| tx := v; last_key_age := age |}),
                g, None, [])
      | st_done _ => None
      end
  | StartTx now ok pc =>
      match pc with
      | k_lock =>
          match lock with
          | None => Some (StartTx now ok k_test, g, Some i, [])
          | Some _ => None
          end
      | k_test =>
          if negb (is_transmitting g)
          then Some (StartTx now ok k_key, g, lock, [Log (log_info "TX ON")])
          else Some (StartTx now ok k_stamp, g, lock, [])
      | k_key =>
          Some (StartTx now ok k_set, g, lock,
                PttKey :: (if ok then []
                           else [Log (log_error "PTT key() failed")]))
      | k_set =>
          Some (StartTx now ok k_loop, set_is_transmitting g true, lock, [])
      | k_loop =>
          let '(g1, e) := audio_tx_loop g in
          Some (StartTx now ok k_stamp, g1, lock, e)
      | k_stamp =>
          Some (StartTx now ok k_unlock, set_last_key_time g now, lock, [])
      | k_unlock => Some (StartTx now ok k_done, g, None, [])
      | k_done => None
      end
  | TailWorker T now ok pc =>
      match pc with
      | w_lock =>
          match lock with
          | None => Some (TailWorker T now ok w_test, g, Some i, [])
          | Some _ => None
          end
      | w_test =>
          if is_transmitting g && Qle_bool T (now - last_key_time g)
          then Some (TailWorker T now ok w_unkey, g, lock,
                     [Log (log_info "TX OFF (tail hang)")])
          else Some (TailWorker T now ok w_unlock, g, lock, [])
      | w_unkey =>
          Some (TailWorker T now ok w_clear, g, lock,
                PttUnkey :: (if ok then []
                             else [Log (log_error "PTT unkey() failed")]))
      | w_clear =>
          Some (TailWorker T now ok w_unlock, set_is_transmitting g false,
                lock, [])
      | w_unlock => Some (TailWorker T now ok w_done, g, None, [])
      | w_done => None
      end
  end.

Fixpoint replace_nth {A} (n : nat) (x : A) (l : list A) : list A :=
  match n, l with
  | _, [] => []
  | O, _ :: r => x :: r
  | S n', y :: r => y :: replace_nth n' x r
  end.

(** The scheduler lets thread [i] run one step; nothing happens when it
    cannot move. *)
Definition sched_step (c : Config) (i : nat) : Config :=
  match nth_error (cfg_threads c) i with
  | None => c
  | Some th =>
      match thread_step i th (cfg_globals c) (cfg_lock c) with
      | None => c
      | Some (th', g, lock, e) =>
          {| cfg_globals := g; cfg_lock := lock;
             cfg_threads := replace_nth i th' (cfg_threads c);
             cfg_effects := cfg_effects c ++ e |}
      end
  end.

Definition exec (c : Config) (sched : list nat) : Config :=
  fold_left sched_step sched c.

(** Every configuration passed through, the first one included. *)
Fixpoint trace (c : Config) (sched : list nat) : list Config :=
  match sched with
  | [] => [c]
  | i :: r => c :: trace (sched_step c i) r
  end.

(** The snapshot a finished [http_status] thread returns. *)
Definition snapshot_of (th : Thread) : option Snapshot :=
  match th with
  | Status _ (st_done s) => Some s
  | _ => None
  end.

(** The snapshots that [http_status] at time [now] computes from the
    globals in force at the instants where [tx_lock] is free. *)
Definition consistent_snapshots (now : Q) (cs : list Config)
  : list Snapshot :=
  map (fun c => http_status now (cfg_globals c)) (filter lock_free cs).

Definition Snapshot_eqb (a b : Snapshot) : bool :=
  Bool.eqb (tx a) (tx b) &&
  match last_key_age a, last_key_age b with
  | None, None => true
  | Some x, Some y => Qeq_bool x y
  | _, _ => false
  end.

(** A keyed gate whose playback thread finds one two-byte frame (the
    sample 32767) in the receive queue. *)
Definition keyed_player_with_frame : Player :=
  {| pl_globals := fst (start_tx 0 true init);
     pl_bridge := fst (MumbleBridge._on_sound_received MumbleBridge.init
                         [xff; x7f]);
     pl_written := [];
     pl_stream_open := true |}.

(** An idle gate, a [/status] request and a [/ptt/on] request, both at
    time 10. *)
Definition status_race : Config :=
  {| cfg_globals := init; cfg_lock := None;
     cfg_threads := [Status 10 st_cond; StartTx 10 true k_lock];
     cfg_effects := [] |}.

(** [http_status] runs until it has computed [age]; [start_tx] runs from
    start to end; [http_status] runs to its end. *)
Definition status_race_schedule : list nat :=
  [0; 1; 1; 1; 1; 1; 1; 1; 0; 0; 0]%nat.

(** Whether a program point lies inside [with tx_lock]. *)
Definition status_in_lock (pc : StatusPc) : bool :=
  match pc with st_read _ | st_unlock _ _ => true | _ => false end.

Definition start_in_lock (pc : StartPc) : bool :=
  match pc with
  | k_lock | k_done => false
  | _ => true
  end.

(** The globals of [status_race] as a function of how far [start_tx] got. *)
Definition globals_by_start (pc : StartPc) : Globals :=
  match pc with
  | k_lock | k_test | k_key | k_set => init
  | k_loop => set_is_transmitting init true
  | k_stamp => set_tx_thread_alive (set_is_transmitting init true) true
  | k_unlock | k_done =>
      set_last_key_time
        (set_tx_thread_alive (set_is_transmitting init true) true) 10
  end.

(** What holds of every configuration [status_race] can reach. *)
Definition race_inv (c : Config) : Prop :=
  exists spc kpc,
    cfg_threads c = [Status 10 spc; StartTx 10 true kpc]
    /\ cfg_globals c = globals_by_start kpc
    /\ cfg_lock c = (if status_in_lock spc then Some 0%nat
                     else if start_in_lock kpc then Some 1%nat else None)
    /\ status_in_lock spc && start_in_lock kpc = false.

(** The gate after a key request at 0 and the tail-hang check (0.75 s) of
    an unkey request, run at 1: idle again, while the playback thread that
    the key request started has not ended yet. *)
Definition idle_after_unkey : Globals :=
  fst (_worker (3 # 4) 1 true (fst (start_tx 0 true init))).

End RemoteTrx.

(* ================================================================== *)
(** ** mumble_bridge.py: construction, draining, keepalive *)

Module BridgeOps.

Import Py MumbleBridge TxWorker.

(** Truth value of an [Optional[str]]: [None] and the empty string are
    false. *)
Definition str_truthy (s : option string) : bool :=
  match s with
  | None => false
  | Some EmptyString => false
  | Some _ => true
  end.

(** How [MumbleBridge(...)] ends: with [ValueError], or with a bridge and
    the warnings logged on the way. *)
Inductive Constructed :=
| ValueError (msg : string)
| Built (b : t) (warnings : list LogRecord).

Definition warn_sample_rate : LogRecord :=
  log_warning "[MumbleBridge] Sample rate differs from 48000; you should resample to 48 kHz before send_pcm().".

Definition warn_channels : LogRecord :=
  log_warning "[MumbleBridge] Non-mono audio is not supported; forcing mono in worker.".

(** [MumbleBridge.__init__(server, user, sample_rate=..., channels=...)] as
    far as the attributes of [MumbleBridge.t] go.  Non-ASCII characters of
    the two warnings are transliterated. *)
Definition __init__ (server user : option string) (sample_rate channels : Z)
  : Constructed :=
  if negb (str_truthy server) then ValueError "server is required"
  else if negb (str_truthy user) then ValueError "user is required"
  else
    Built MumbleBridge.init
      ((if negb (sample_rate =? _PYMUMBLE_SR) then [warn_sample_rate] else [])
       ++ (if negb (channels =? 1) then [warn_channels] else [])).

(** The loop of [drain_tx()]: [get_nowait] until [queue.Empty], each chunk
    handed to [add_sound] as it is.  [fuel] bounds the iterations. *)
Fixpoint drain_loop (fuel : nat) (q : PyQueue.t bytes) (s : Session)
  : PyQueue.t bytes * Session :=
  match fuel with
  | O => (q, s)
  | S fuel' =>
      match PyQueue.get q with
      | None => (q, s)                                (* queue.Empty: break *)
      | Some (pcm, q') => drain_loop fuel' q' (add_sound s pcm)
      end
  end.

(** [drain_tx()]: one more round than there are queued chunks lets the loop
    reach its [break]. *)
Definition drain_tx (b : t) (s : Session) : t * Session :=
  let '(q, s') :=
    drain_loop (S (length (PyQueue.items (_tx_q b)))) (_tx_q b) s in
  (set_tx_q b q, s').

(** [n] calls of [get_received()] in a row: what each returned, and the
    bridge afterwards. *)
Fixpoint get_received_n (n : nat) (b : t) : list (option bytes) * t :=
  match n with
  | O => ([], b)
  | S n' =>
      let '(x, b1) := get_received b in
      let '(xs, b2) := get_received_n n' b1 in
      (x :: xs, b2)
  end.

(** The buffers that [send_pcm] puts on the queue along [evs], oldest
    first: those of the calls that found the queue not full. *)
Fixpoint accepted (sys : System) (evs : list Event) : list bytes :=
  match evs with
  | [] => []
  | e :: r =>
      match e with
      | Send pcm =>
          match pcm_buffer pcm with
          | Some buf =>
              if PyQueue.full (_tx_q (w_bridge (sys_worker sys)))
              then accepted (step sys e) r
              else buf :: accepted (step sys e) r
          | None => accepted (step sys e) r
          end
      | _ => accepted (step sys e) r
      end
  end.

(** How the local [frame_bytes] of the sender thread stands to the chunks
    [taken] from the queue so far: unbound as long as none was taken, and
    otherwise equal to the attribute [_frame_bytes]. *)
Definition local_agrees (sys : System) (taken : list bytes) : Prop :=
  match w_frame_bytes (sys_worker sys) with
  | Unbound => taken = []
  | Bound v => taken <> [] /\ v = _frame_bytes (w_bridge (sys_worker sys))
  end.

(** What the keepalive thread owns: [_last_ping_ts] and its log records. *)
Record Pinger := {
  _last_ping_ts : option Q;
  ping_log : list LogRecord;
}.

Definition ping_ok : LogRecord := log_info "Mumble ping".
Definition ping_failed : LogRecord := log_warning "[MumbleBridge] ping failed".

(** One iteration of the loop of [_ping_worker]: [now] is the reading of
    [time.time()] after the ping, [ok] tells whether [self._m.ping()]
    returned. *)
Definition ping_tick (log_pings : bool) (p : Pinger) (tick : Q * bool)
  : Pinger :=
  if snd tick then
    {| _last_ping_ts := Some (fst tick);
       ping_log := ping_log p ++ (if log_pings then [ping_ok] else []) |}
  else
    {| _last_ping_ts := _last_ping_ts p;
       ping_log := ping_log p ++ [ping_failed] |}.

(** [_ping_worker()] over the ticks that happen before the shutdown flag
    is set. *)
Definition _ping_worker (log_pings : bool) (ticks : list (Q * bool))
  (p : Pinger) : Pinger :=
  let p0 := {| _last_ping_ts := _last_ping_ts p;
               ping_log := ping_log p
                           ++ [log_info "[MumbleBridge] Ping worker started"] |} in
  let p1 := fold_left (ping_tick log_pings) ticks p0 in
  {| _last_ping_ts := _last_ping_ts p1;
     ping_log := ping_log p1
                 ++ [log_info "[MumbleBridge] Ping worker exiting"] |}.

(** The time of the last tick whose ping returned. *)
Definition last_ok (ticks : list (Q * bool)) : option Q :=
  option_map fst (find snd (rev ticks)).

Definition is_warning (r : LogRecord) : bool :=
  match log_level r with WARNING => true | _ => false end.

End BridgeOps.

(* ================================================================== *)
(** ** remote_trx.py: device lookup, exit handler, lock discipline *)

Module TrxOps.

Import Py RemoteTrx.

(** A Python [str]: the sequence of its code points. *)
Definition pystr := list N.

(** The [str] of a text of ASCII characters. *)
Definition ascii_text (s : string) : pystr :=
  map Byte.to_N (list_byte_of_string s).

(** What [str.lower()] returns on a text of ASCII characters: the letters
    [A]..[Z] become [a]..[z], every other character stays. *)
Definition ascii_lower (s : pystr) : pystr :=
  map (fun c => if ((65 <=? c) && (c <=? 90))%N then (c + 32)%N else c) s.

(** Whether [needle] is a prefix of [hay]. *)
Fixpoint starts_with (needle hay : pystr) : bool :=
  match needle, hay with
  | [], _ => true
  | _ :: _, [] => false
  | a :: n, b :: h => (a =? b)%N && starts_with n h
  end.

(** [needle in hay] on [str]. *)
Fixpoint contains (needle hay : pystr) : bool :=
  starts_with needle hay
  || match hay with
     | [] => false
     | _ :: r => contains needle r
     end.

(** One entry of [sd.query_devices()]. *)
Record Device := {
  name : pystr;
  max_input_channels : Z;
  max_output_channels : Z;
}.

Section FindDevice.

(** [str.lower()], which folds case by the Unicode tables of the
    interpreter: it is taken as it comes. *)
Variable str_lower : pystr -> pystr.

(** The test of the loop body of [find_device_index]. *)
Definition usable (wanted : pystr) (is_input : bool) (dev : Device) : bool :=
  contains (str_lower wanted) (str_lower (name dev))
  && (if is_input then 0 <? max_input_channels dev
      else 0 <? max_output_channels dev).

(** The loop of [find_device_index] from index [idx] on. *)
Fixpoint find_from (idx : nat) (wanted : pystr) (is_input : bool)
  (devs : list Device) : option nat :=
  match devs with
  | [] => None
  | dev :: r =>
      if contains (str_lower wanted) (str_lower (name dev)) then
        if is_input && (0 <? max_input_channels dev) then Some idx
        else if negb is_input && (0 <? max_output_channels dev) then Some idx
        else find_from (S idx) wanted is_input r
      else find_from (S idx) wanted is_input r
  end.

(** [find_device_index(name, is_input)] over the devices that
    [sd.query_devices()] lists; [None] is the [RuntimeError]. *)
Definition find_device_index (wanted : pystr) (is_input : bool)
  (devs : list Device) : option nat :=
  find_from 0 wanted is_input devs.

End FindDevice.

(** Whether the PTT line is asserted after the calls [effs], starting from
    [line]. *)
Definition ptt_line (line : bool) (effs : list Effect) : bool :=
  fold_left (fun l e => match e with
                        | PttKey => true
                        | PttUnkey => false
                        | _ => l
                        end) effs line.

(** Whether [effs] never keys a keyed line nor unkeys a released one. *)
Fixpoint ptt_alternates (line : bool) (effs : list Effect) : bool :=
  match effs with
  | [] => true
  | PttKey :: r => negb line && ptt_alternates true r
  | PttUnkey :: r => line && ptt_alternates false r
  | _ :: r => ptt_alternates line r
  end.

(** The calls of the [finally] clause of [main]. *)
Inductive ExitCall :=
| MumbleSetTxOff                (* mumble.set_tx(False) *)
| Gate (e : Effect)             (* ptt.unkey(), logging *)
| RxStreamStop
| RxStreamClose
| MumbleStop
| BridgeStop.

(** The [finally] clause of [main]: [has_mumble] and [has_rx] tell whether
    [mumble] and [rx_stream] are set, [rx_stop_ok] whether
    [rx_stream.stop()] returns (if it raises, [close()] is skipped).  Every
    other call sits in a [try] of its own whose handler passes, so a
    failure changes nothing of the sequence.  [is_transmitting] is not
    written. *)
Definition main_finally (has_mumble has_rx rx_stop_ok : bool) (g : Globals)
  : list ExitCall :=
  (if is_transmitting g then
     (if has_mumble then [MumbleSetTxOff] else []) ++ [Gate PttUnkey]
   else [])
  ++ (if has_rx
      then RxStreamStop :: (if rx_stop_ok then [RxStreamClose] else [])
      else [])
  ++ (if has_mumble then [MumbleStop] else [])
  ++ [BridgeStop; Gate (Log (log_info "Clean exit"))].

(** The calls on the gate's collaborators among the exit calls. *)
Fixpoint gate_calls (l : list ExitCall) : list Effect :=
  match l with
  | [] => []
  | Gate e :: r => e :: gate_calls r
  | _ :: r => gate_calls r
  end.

(** The look of [play_loop] at the gate: [tx_active], read under
    [tx_lock]; the loop breaks when it is false. *)
Definition play_loop_look (g : Globals) : bool := is_transmitting g.

(** The playback thread has left its loop, run its [finally] clause and
    returned: [tx_thread.is_alive()] is false from here on. *)
Definition play_loop_ended (g : Globals) : Globals :=
  set_tx_thread_alive g false.

(** Key requests one after the other, each with its clock reading and
    whether [ptt.key()] would succeed: the globals after the last one and
    all the calls made. *)
Fixpoint start_tx_all (calls : list (Q * bool)) (g : Globals)
  : Globals * list Effect :=
  match calls with
  | [] => (g, [])
  | (now, hw_ok) :: r =>
      let '(g1, e1) := start_tx now hw_ok g in
      let '(g2, e2) := start_tx_all r g1 in
      (g2, e1 ++ e2)
  end.

(** Whether a thread is inside [with tx_lock]. *)
Definition in_critical (th : Thread) : bool :=
  match th with
  | Status _ pc => status_in_lock pc
  | StartTx _ _ pc => start_in_lock pc
  | TailWorker _ _ _ pc =>
      match pc with
      | w_lock | w_done => false
      | _ => true
      end
  end.

(** The lock is held by thread [i] exactly when thread [i] is inside its
    critical section. *)
Definition lock_discipline (c : Config) : Prop :=
  forall i th,
    nth_error (cfg_threads c) i = Some th ->
    (in_critical th = true <-> cfg_lock c = Some i).

End TrxOps.

(* ================================================================== *)
(** * Properties *)

(** ** Slices *)

Module SliceFacts.

Import Py.

Lemma slice_count_pos {A} (k : Z) (l : list A) :
  0 < k -> k <= Z.of_nat (length l) -> slice_count k l = Z.to_nat k.
Proof.
  intros Hk Hl. unfold slice_count.
  destruct (k <? 0) eqn:E; [apply Z.ltb_lt in E; lia|].
  rewrite Z.min_l by lia. reflexivity.
Qed.

Lemma slice_split {A} (k : Z) (l : list A) :
  slice_to k l ++ del_slice_to k l = l.
Proof. unfold slice_to, del_slice_to. apply firstn_skipn. Qed.

Lemma slice_to_length {A} (k : Z) (l : list A) :
  0 < k -> k <= Z.of_nat (length l) ->
  Z.of_nat (length (slice_to k l)) = k.
Proof.
  intros Hk Hl. unfold slice_to. rewrite slice_count_pos by assumption.
  rewrite firstn_length_le by lia. lia.
Qed.

Lemma del_slice_to_length {A} (k : Z) (l : list A) :
  0 < k -> k <= Z.of_nat (length l) ->
  Z.of_nat (length (del_slice_to k l)) = Z.of_nat (length l) - k.
Proof.
  intros Hk Hl. unfold del_slice_to. rewrite slice_count_pos by assumption.
  rewrite length_skipn. lia.
Qed.

End SliceFacts.

(** ** The frame loop of the sender task *)

Module FrameLoopFacts.

Import Py MumbleBridge TxWorker SliceFacts.

Lemma frame_loop_fuel (fuel : nat) :
  forall fb accum s,
    0 < fb -> (length accum < fuel)%nat ->
    exists frames rest,
      frame_loop fuel fb accum s
      = Some (rest, {| encoder_framesize := encoder_framesize s;
                       add_sound_calls := add_sound_calls s ++ frames |})
      /\ Framed fb accum frames rest.
Proof.
  induction fuel as [|fuel IH]; intros fb accum s Hfb Hlen; [lia|].
  cbn [frame_loop].
  destruct (fb <=? Z.of_nat (length accum)) eqn:E.
  - apply Z.leb_le in E.
    pose proof (del_slice_to_length accum Hfb E) as Hdel.
    destruct (IH fb (del_slice_to fb accum) (add_sound s (slice_to fb accum)) Hfb)
      as (frames & rest & Hrun & Hfr); [lia|].
    exists (slice_to fb accum :: frames), rest. split.
    + rewrite Hrun. cbn. rewrite <- app_assoc. reflexivity.
    + destruct Hfr as [Hc Hw Hr]. split.
      * cbn [concat]. rewrite <- app_assoc, Hc. apply slice_split.
      * constructor; [apply slice_to_length; assumption | exact Hw].
      * exact Hr.
  - apply Z.leb_gt in E. exists [], accum. split.
    + rewrite app_nil_r. destruct s; reflexivity.
    + split; [reflexivity | constructor | exact E].
Qed.

(** With a frame size of zero or less the loop condition never becomes
    false: no amount of fuel ends the loop. *)
Lemma frame_loop_spins (fuel : nat) :
  forall fb accum s, fb <= 0 -> frame_loop fuel fb accum s = None.
Proof.
  induction fuel as [|fuel IH]; intros fb accum s Hfb; cbn [frame_loop].
  - replace (fb <=? Z.of_nat (length accum)) with true; [reflexivity|].
    symmetry. apply Z.leb_le. lia.
  - replace (fb <=? Z.of_nat (length accum)) with true; [apply IH; exact Hfb|].
    symmetry. apply Z.leb_le. lia.
Qed.

End FrameLoopFacts.

(** ** The first loop of the sender task *)

Module TxWorkerFacts.

Import Py MumbleBridge TxWorker SliceFacts FrameLoopFacts.

Lemma compute_frame_bytes_accum s b :
  _accum (fst (_compute_frame_bytes_if_ready s b)) = _accum b.
Proof.
  unfold _compute_frame_bytes_if_ready.
  destruct (truthy (_frame_bytes b)); [reflexivity|].
  destruct (encoder_framesize s) as [fs|]; [|reflexivity].
  destruct (truthyQ (Some fs)); reflexivity.
Qed.

Lemma send_pcm_accum b pcm : _accum (fst (send_pcm b pcm)) = _accum b.
Proof.
  unfold send_pcm. destruct (pcm_buffer pcm) as [buf|]; [|reflexivity].
  destruct (PyQueue.put_nowait (_tx_q b) buf); reflexivity.
Qed.

Lemma get_received_accum b : _accum (snd (get_received b)) = _accum b.
Proof.
  unfold get_received. destruct (PyQueue.get (_rx_q b)) as [[x q]|]; reflexivity.
Qed.

Lemma on_sound_received_accum b pcm :
  _accum (fst (_on_sound_received b pcm)) = _accum b.
Proof.
  unfold _on_sound_received.
  destruct (PyQueue.put_nowait (_rx_q b) pcm); reflexivity.
Qed.

Lemma tx_worker_iter_session w :
  w_session (tx_worker_iter w) = w_session w.
Proof.
  unfold tx_worker_iter.
  destruct (PyQueue.get (_tx_q (w_bridge w))) as [[chunk q]|]; [|reflexivity].
  destruct (_compute_frame_bytes_if_ready _ _) as [b2 fb].
  destruct (negb (truthy fb)); reflexivity.
Qed.

Lemma tx_worker_iter_accum w :
  _accum (w_bridge (tx_worker_iter w))
  = _accum (w_bridge w)
    ++ match PyQueue.get (_tx_q (w_bridge w)) with
       | Some (chunk, _) => chunk
       | None => []
       end.
Proof.
  unfold tx_worker_iter.
  destruct (PyQueue.get (_tx_q (w_bridge w))) as [[chunk q]|];
    [|symmetry; apply app_nil_r].
  pose proof (compute_frame_bytes_accum (w_session w)
                (set_accum (set_tx_q (w_bridge w) q)
                   (_accum (w_bridge w) ++ chunk))) as H.
  destruct (_compute_frame_bytes_if_ready _ _) as [b2 fb].
  cbn in H. destruct (negb (truthy fb)); exact H.
Qed.

(** No step of the system while the first loop runs calls [add_sound]. *)
Lemma step_sent sys e : sent (step sys e) = sent sys.
Proof.
  unfold sent. destruct e as [pcm|pcm| |fs|]; cbn [step].
  - destruct (send_pcm _ pcm); reflexivity.
  - destruct (_on_sound_received _ pcm); reflexivity.
  - reflexivity.
  - reflexivity.
  - cbn. rewrite tx_worker_iter_session. reflexivity.
Qed.

Lemma run_sent evs : forall sys, sent (run sys evs) = sent sys.
Proof.
  induction evs as [|e r IH]; intro sys; [reflexivity|].
  cbn [run fold_left]. fold (run (step sys e) r).
  rewrite IH. apply step_sent.
Qed.

(** The buffer after a run is the buffer before it followed by every chunk
    the sender thread took from the queue. *)
Lemma run_accum evs :
  forall sys,
    _accum (w_bridge (sys_worker (run sys evs)))
    = _accum (w_bridge (sys_worker sys)) ++ concat (pushed sys evs).
Proof.
  induction evs as [|e r IH]; intro sys.
  - cbn. symmetry. apply app_nil_r.
  - cbn [run fold_left]. fold (run (step sys e) r). rewrite IH.
    destruct e as [pcm|pcm| |fs|]; cbn [pushed].
    + f_equal. cbn [step].
      pose proof (send_pcm_accum (w_bridge (sys_worker sys)) pcm) as H.
      destruct (send_pcm _ pcm); exact H.
    + f_equal. cbn [step].
      pose proof (on_sound_received_accum (w_bridge (sys_worker sys)) pcm) as H.
      destruct (_on_sound_received _ pcm); exact H.
    + f_equal. cbn [step sys_worker with_bridge w_bridge].
      apply get_received_accum.
    + reflexivity.
    + cbn [step sys_worker]. rewrite tx_worker_iter_accum.
      destruct (PyQueue.get (_tx_q (w_bridge (sys_worker sys))))
        as [[chunk q]|].
      * cbn [concat]. rewrite app_assoc. reflexivity.
      * rewrite app_nil_r. reflexivity.
Qed.

(** Once [_frame_bytes] holds a non-zero integer nothing changes it. *)
Lemma step_frame_bytes sys e :
  truthy (_frame_bytes (w_bridge (sys_worker sys))) = true ->
  _frame_bytes (w_bridge (sys_worker (step sys e)))
  = _frame_bytes (w_bridge (sys_worker sys)).
Proof.
  intro Ht. destruct e as [pcm|pcm| |fs|]; cbn [step].
  - unfold send_pcm. destruct (pcm_buffer pcm) as [buf|]; [|reflexivity].
    destruct (PyQueue.put_nowait _ buf); reflexivity.
  - unfold _on_sound_received.
    destruct (PyQueue.put_nowait _ pcm); reflexivity.
  - cbn. unfold get_received.
    destruct (PyQueue.get _) as [[x q]|]; reflexivity.
  - reflexivity.
  - cbn [sys_worker]. unfold tx_worker_iter.
    destruct (PyQueue.get _) as [[chunk q]|]; [|reflexivity].
    unfold _compute_frame_bytes_if_ready. cbn [set_accum set_tx_q _frame_bytes].
    rewrite Ht. cbn. rewrite Ht. reflexivity.
Qed.

Lemma run_frame_bytes evs :
  forall sys,
    truthy (_frame_bytes (w_bridge (sys_worker sys))) = true ->
    _frame_bytes (w_bridge (sys_worker (run sys evs)))
    = _frame_bytes (w_bridge (sys_worker sys)).
Proof.
  induction evs as [|e r IH]; intros sys Ht; [reflexivity|].
  cbn [run fold_left]. fold (run (step sys e) r).
  pose proof (@step_frame_bytes sys e Ht) as Hs.
  rewrite IH; [exact Hs | rewrite Hs; exact Ht].
Qed.

Lemma run_app sys evs1 evs2 :
  run sys (evs1 ++ evs2) = run (run sys evs1) evs2.
Proof. apply fold_left_app. Qed.

End TxWorkerFacts.

(** ** Claims on the sender task *)

Module TxWorkerClaims.

Import Py MumbleBridge TxWorker SliceFacts FrameLoopFacts TxWorkerFacts.

Lemma boot_accum : _accum (w_bridge (sys_worker boot)) = [].
Proof. reflexivity. Qed.

(** C4.  Whatever happens while the sender task runs, when it leaves its
    first loop the frames taken out of the accumulator (the arguments of
    [add_sound], in order) followed by the bytes left in it are exactly the
    chunks pushed into it, in order; for a positive frame size [fb] every
    frame taken out has exactly [fb] bytes and fewer than [fb] bytes are
    left; and with the frame size unknown no frame is taken out at all and
    every pushed byte is still in the accumulator. *)
Theorem frame_accumulator_conserves_bytes (evs : list Event) :
  let w := sys_worker (run boot evs) in
  (forall fb,
      0 < fb -> w_frame_bytes w = Bound (Some fb) ->
      exists b' s',
        _tx_worker boot evs = Returned b' s'
        /\ Framed fb (concat (pushed boot evs))
             (add_sound_calls s') (_accum b'))
  /\ (w_frame_bytes w = Unbound \/ w_frame_bytes w = Bound None ->
      exists exc,
        _tx_worker boot evs = Raised exc (w_bridge w) (w_session w)
        /\ add_sound_calls (w_session w) = []
        /\ _accum (w_bridge w) = concat (pushed boot evs)).
Proof.
  intro w. unfold _tx_worker. fold w.
  assert (Hacc : _accum (w_bridge w) = concat (pushed boot evs)).
  { subst w. rewrite run_accum. reflexivity. }
  assert (Hsent : add_sound_calls (w_session w) = []).
  { subst w. exact (run_sent evs boot). }
  split.
  - intros fb Hfb Hloc. unfold tx_worker_exit. rewrite Hloc.
    destruct (@frame_loop_fuel (S (length (_accum (w_bridge w)))) fb
                (_accum (w_bridge w)) (w_session w) Hfb
                (Nat.lt_succ_diag_r _))
      as (frames & rest & Hrun & Hfr).
    rewrite Hrun. eexists _, _. split; [reflexivity|].
    cbn. rewrite Hsent, <- Hacc. exact Hfr.
  - intros [Hloc|Hloc]; unfold tx_worker_exit; rewrite Hloc;
      eexists; (split; [reflexivity | split; assumption]).
Qed.

(** A run in which the encoder reports two-byte frames and five bytes are
    pushed in two chunks. *)
Lemma frame_accumulator_conserves_bytes_witness :
  let evs := [Send (Bytes [x01; x02; x03]); Encoder (Some (1 # 48000)%Q);
              Iterate; Send (Bytes [x04; x05]); Iterate] in
  (0 < 2 /\ w_frame_bytes (sys_worker (run boot evs)) = Bound (Some 2))
  /\ exists b' s',
      _tx_worker boot evs = Returned b' s'
      /\ Framed 2 (concat (pushed boot evs)) (add_sound_calls s') (_accum b').
Proof.
  intro evs. split; [split; [lia | reflexivity]|].
  apply (proj1 (frame_accumulator_conserves_bytes evs) 2); [lia | reflexivity].
Defined.

(** C1.  With the encoder reporting 20 ms frames (1920 bytes) and one
    capture block of 1024 samples (2048 bytes) sent and taken by the sender
    task, the frame size is known and a whole frame is in the accumulator;
    yet nothing has been passed to [add_sound], and nothing is for as long
    as the first loop runs, whatever happens next: the frame loop is only
    reached once the shutdown flag is set. *)
Theorem known_frame_size_dispatches_nothing (evs : list Event) :
  let sys0 := run boot frame_ready_events in
  let sys := run boot (frame_ready_events ++ evs) in
  w_frame_bytes (sys_worker sys0) = Bound (Some 1920)
  /\ length (_accum (w_bridge (sys_worker sys0))) = 2048%nat
  /\ _frame_bytes (w_bridge (sys_worker sys)) = Some 1920
  /\ (2048 <= length (_accum (w_bridge (sys_worker sys))))%nat
  /\ sent sys = [].
Proof.
  intros sys0 sys.
  assert (H0 : w_frame_bytes (sys_worker sys0) = Bound (Some 1920))
    by (vm_compute; reflexivity).
  assert (H1 : length (_accum (w_bridge (sys_worker sys0))) = 2048%nat)
    by (vm_compute; reflexivity).
  assert (H2 : _frame_bytes (w_bridge (sys_worker sys0)) = Some 1920)
    by (vm_compute; reflexivity).
  subst sys. rewrite run_app. fold sys0.
  repeat split; try assumption.
  - rewrite run_frame_bytes; [exact H2 | rewrite H2; reflexivity].
  - rewrite run_accum, length_app, H1. lia.
  - rewrite run_sent. vm_compute. reflexivity.
Qed.

End TxWorkerClaims.

(** ** Claims on the two queues and on [send_pcm] *)

Module QueueClaims.

Import Py MumbleBridge TxWorker TxWorkerFacts.

Lemma put_nowait_bounded {A} (q q' : PyQueue.t A) (x : A) :
  PyQueue.maxsize q = 200 -> PyQueue.qsize q <= 200 ->
  PyQueue.put_nowait q x = Some q' ->
  PyQueue.maxsize q' = 200 /\ PyQueue.qsize q' <= 200.
Proof.
  intros Hm Hs. unfold PyQueue.put_nowait, PyQueue.full.
  rewrite Hm. cbn [Z.ltb Z.compare andb].
  destruct (200 <=? PyQueue.qsize q) eqn:E; [discriminate|].
  apply Z.leb_gt in E. intro H. injection H as <-.
  unfold PyQueue.qsize in *. cbn. rewrite length_app. cbn. split; [reflexivity|lia].
Qed.

Lemma get_bounded {A} (q q' : PyQueue.t A) (x : A) :
  PyQueue.maxsize q = 200 -> PyQueue.qsize q <= 200 ->
  PyQueue.get q = Some (x, q') ->
  PyQueue.maxsize q' = 200 /\ PyQueue.qsize q' <= 200.
Proof.
  intros Hm Hs. unfold PyQueue.get, PyQueue.qsize in *.
  destruct (PyQueue.items q) as [|y r]; [discriminate|].
  intro H. injection H as _ <-. cbn in *. split; [assumption|lia].
Qed.

Lemma compute_frame_bytes_queues s b :
  _tx_q (fst (_compute_frame_bytes_if_ready s b)) = _tx_q b
  /\ _rx_q (fst (_compute_frame_bytes_if_ready s b)) = _rx_q b.
Proof.
  unfold _compute_frame_bytes_if_ready.
  destruct (truthy (_frame_bytes b)); [split; reflexivity|].
  destruct (encoder_framesize s) as [fs|]; [|split; reflexivity].
  destruct (truthyQ (Some fs)); split; reflexivity.
Qed.

Lemma step_bounded sys e :
  queues_bounded (w_bridge (sys_worker sys)) ->
  queues_bounded (w_bridge (sys_worker (step sys e))).
Proof.
  intros (Htm & Hts & Hrm & Hrs). unfold queues_bounded.
  destruct e as [pcm|pcm| |fs|]; cbn [step].
  - unfold send_pcm. destruct (pcm_buffer pcm) as [buf|]; [|cbn; auto].
    destruct (PyQueue.put_nowait _ buf) as [q|] eqn:E; [|cbn; auto].
    destruct (put_nowait_bounded _ _ Htm Hts E). cbn. auto.
  - unfold _on_sound_received.
    destruct (PyQueue.put_nowait _ pcm) as [q|] eqn:E; [|cbn; auto].
    destruct (put_nowait_bounded _ _ Hrm Hrs E). cbn. auto.
  - cbn. unfold get_received.
    destruct (PyQueue.get _) as [[x q]|] eqn:E; [|cbn; auto].
    destruct (get_bounded _ Hrm Hrs E). cbn. auto.
  - cbn. auto.
  - cbn [sys_worker]. unfold tx_worker_iter.
    destruct (PyQueue.get _) as [[chunk q]|] eqn:E; [|auto].
    destruct (get_bounded _ Htm Hts E) as [Hm' Hs'].
    pose proof (compute_frame_bytes_queues (w_session (sys_worker sys))
                  (set_accum (set_tx_q (w_bridge (sys_worker sys)) q)
                     (_accum (w_bridge (sys_worker sys)) ++ chunk)))
      as [Ht Hr].
    destruct (_compute_frame_bytes_if_ready _ _) as [b2 fb].
    cbn in Ht, Hr. destruct (negb (truthy fb)); cbn; rewrite Ht, Hr; auto.
Qed.

Lemma run_bounded evs :
  forall sys,
    queues_bounded (w_bridge (sys_worker sys)) ->
    queues_bounded (w_bridge (sys_worker (run sys evs))).
Proof.
  induction evs as [|e r IH]; intros sys H; [exact H|].
  cbn [run fold_left]. apply IH, step_bounded, H.
Qed.

Lemma firstn_snoc_short {A} (n : nat) (l : list A) (x : A) :
  (length l < n)%nat -> firstn n (l ++ [x]) = firstn n l ++ [x].
Proof.
  intro H. rewrite firstn_app.
  replace (n - length l)%nat with (S (n - length l - 1)) by lia.
  cbn. rewrite firstn_nil. reflexivity.
Qed.

Lemma firstn_snoc_full {A} (n : nat) (l : list A) (x : A) :
  (n <= length l)%nat -> firstn n (l ++ [x]) = firstn n l.
Proof.
  intro H. rewrite firstn_app.
  replace (n - length l)%nat with O by lia. cbn. apply app_nil_r.
Qed.

Lemma repeat_snoc {A} (x : A) (n : nat) : repeat x n ++ [x] = repeat x (S n).
Proof. induction n as [|n IH]; cbn; [reflexivity|]. rewrite IH. reflexivity. Qed.

(** Sending more frames than the queue holds, with no dequeue: the first
    [cap] stay queued in order and every later one leaves a debug record. *)
Lemma tx_flood_from (cap : nat) (sys0 : System) (frames : list bytes) :
  (0 < cap)%nat ->
  PyQueue.maxsize (_tx_q (w_bridge (sys_worker sys0))) = Z.of_nat cap ->
  PyQueue.items (_tx_q (w_bridge (sys_worker sys0))) = [] ->
  let sys := run sys0 (map (fun f => Send (Bytes f)) frames) in
  let b := w_bridge (sys_worker sys) in
  PyQueue.maxsize (_tx_q b) = Z.of_nat cap
  /\ PyQueue.items (_tx_q b) = firstn cap frames
  /\ sys_log sys = sys_log sys0 ++ repeat tx_drop (length frames - cap).
Proof.
  intros Hcap Hm0 Hi0.
  induction frames as [|f frames IH] using rev_ind.
  - cbn. rewrite firstn_nil, app_nil_r. auto.
  - cbn zeta in *. rewrite map_app, run_app. cbn [map run fold_left].
    destruct IH as (Hm & Hi & Hl).
    set (sys := run sys0 (map (fun f => Send (Bytes f)) frames)) in *.
    cbn [step]. unfold send_pcm. cbn [pcm_buffer].
    unfold PyQueue.put_nowait, PyQueue.full, PyQueue.qsize.
    rewrite Hm, Hi, length_firstn, length_app.
    replace (0 <? Z.of_nat cap) with true by (symmetry; apply Z.ltb_lt; lia).
    cbn [andb length].
    destruct (Z.of_nat cap <=? Z.of_nat (Nat.min cap (length frames))) eqn:E.
    + apply Z.leb_le in E.
      cbn [sys_worker with_bridge w_bridge sys_log].
      rewrite Hl, Hm, Hi. rewrite firstn_snoc_full by lia.
      repeat split. rewrite <- app_assoc, repeat_snoc. do 2 f_equal. lia.
    + apply Z.leb_gt in E.
      cbn [sys_worker with_bridge w_bridge sys_log set_tx_q _tx_q
             PyQueue.maxsize PyQueue.items].
      rewrite Hl. rewrite firstn_snoc_short by lia.
      repeat split. rewrite app_nil_r. do 2 f_equal. lia.
Qed.

Lemma rx_flood_from (cap : nat) (sys0 : System) (frames : list bytes) :
  (0 < cap)%nat ->
  PyQueue.maxsize (_rx_q (w_bridge (sys_worker sys0))) = Z.of_nat cap ->
  PyQueue.items (_rx_q (w_bridge (sys_worker sys0))) = [] ->
  let sys := run sys0 (map SoundReceived frames) in
  let b := w_bridge (sys_worker sys) in
  PyQueue.maxsize (_rx_q b) = Z.of_nat cap
  /\ PyQueue.items (_rx_q b) = firstn cap frames
  /\ sys_log sys = sys_log sys0 ++ repeat rx_drop (length frames - cap).
Proof.
  intros Hcap Hm0 Hi0.
  induction frames as [|f frames IH] using rev_ind.
  - cbn. rewrite firstn_nil, app_nil_r. auto.
  - cbn zeta in *. rewrite map_app, run_app. cbn [map run fold_left].
    destruct IH as (Hm & Hi & Hl).
    set (sys := run sys0 (map SoundReceived frames)) in *.
    cbn [step]. unfold _on_sound_received.
    unfold PyQueue.put_nowait, PyQueue.full, PyQueue.qsize.
    rewrite Hm, Hi, length_firstn, length_app.
    replace (0 <? Z.of_nat cap) with true by (symmetry; apply Z.ltb_lt; lia).
    cbn [andb length].
    destruct (Z.of_nat cap <=? Z.of_nat (Nat.min cap (length frames))) eqn:E.
    + apply Z.leb_le in E.
      cbn [sys_worker with_bridge w_bridge sys_log].
      rewrite Hl, Hm, Hi. rewrite firstn_snoc_full by lia.
      repeat split. rewrite <- app_assoc, repeat_snoc. do 2 f_equal. lia.
    + apply Z.leb_gt in E.
      cbn [sys_worker with_bridge w_bridge sys_log set_rx_q _rx_q
             PyQueue.maxsize PyQueue.items].
      rewrite Hl. rewrite firstn_snoc_short by lia.
      repeat split. rewrite app_nil_r. do 2 f_equal. lia.
Qed.

Lemma send_pcm_full b pcm buf :
  pcm_buffer pcm = Some buf -> PyQueue.full (_tx_q b) = true ->
  send_pcm b pcm = (b, [tx_drop]).
Proof.
  intros Hb Hf. unfold send_pcm, PyQueue.put_nowait. rewrite Hb, Hf. reflexivity.
Qed.

Lemma on_sound_received_full b pcm :
  PyQueue.full (_rx_q b) = true -> _on_sound_received b pcm = (b, [rx_drop]).
Proof.
  intro Hf. unfold _on_sound_received, PyQueue.put_nowait. rewrite Hf. reflexivity.
Qed.

Lemma boot_bounded : queues_bounded (w_bridge (sys_worker boot)).
Proof. repeat split; cbn; lia. Qed.

(** C6, as the code has it.  Whatever is sent, received and dequeued,
    neither queue ever holds more than 200 frames.  An enqueue onto a full
    queue returns at once, leaves the bridge (both queues and everything
    else) exactly as it was, and emits one debug log record; the bridge
    keeps no count of drops.  When [n] frames are enqueued with no dequeue,
    the first 200 are queued in order and the number of drop records is
    [n - 200] (0 when [n <= 200]). *)
Theorem bounded_queues_drop_newest_and_log :
  (forall evs,
      let b := w_bridge (sys_worker (run boot evs)) in
      PyQueue.qsize (_tx_q b) <= 200 /\ PyQueue.qsize (_rx_q b) <= 200)
  /\ (forall b pcm buf,
         pcm_buffer pcm = Some buf -> PyQueue.full (_tx_q b) = true ->
         send_pcm b pcm = (b, [tx_drop]))
  /\ (forall b pcm,
         PyQueue.full (_rx_q b) = true ->
         _on_sound_received b pcm = (b, [rx_drop]))
  /\ (forall frames,
         let sys := run boot (map (fun f => Send (Bytes f)) frames) in
         PyQueue.items (_tx_q (w_bridge (sys_worker sys))) = firstn 200 frames
         /\ sys_log sys = repeat tx_drop (length frames - 200))
  /\ (forall frames,
         let sys := run boot (map SoundReceived frames) in
         PyQueue.items (_rx_q (w_bridge (sys_worker sys))) = firstn 200 frames
         /\ sys_log sys = repeat rx_drop (length frames - 200)).
Proof.
  split; [|split; [|split; [|split]]].
  - intros evs b. destruct (@run_bounded evs boot boot_bounded) as (_ & Ht & _ & Hr).
    split; assumption.
  - exact send_pcm_full.
  - exact on_sound_received_full.
  - intros frames sys.
    destruct (@tx_flood_from 200 boot frames) as (_ & Hi & Hl);
      [lia | reflexivity | reflexivity |].
    split; [exact Hi | exact Hl].
  - intros frames sys.
    destruct (@rx_flood_from 200 boot frames) as (_ & Hi & Hl);
      [lia | reflexivity | reflexivity |].
    split; [exact Hi | exact Hl].
Qed.

Lemma full_bridge_is_full : PyQueue.full (_tx_q full_bridge) = true.
Proof. vm_compute. reflexivity. Qed.

(** The 201st frame sent to a bridge whose queue holds 200. *)
Lemma bounded_queues_drop_newest_and_log_witness :
  (pcm_buffer (Bytes [x01; x00]) = Some [x01; x00]
   /\ PyQueue.full (_tx_q full_bridge) = true)
  /\ send_pcm full_bridge (Bytes [x01; x00]) = (full_bridge, [tx_drop]).
Proof.
  split; [split; [reflexivity | exact full_bridge_is_full]|].
  apply (proj1 (proj2 bounded_queues_drop_newest_and_log)
           full_bridge (Bytes [x01; x00]) [x01; x00]);
    [reflexivity | exact full_bridge_is_full].
Defined.

(** C6, as stated, fails: a drop counter would be some number read off the
    bridge that goes up by one at each drop, but the 201st frame leaves the
    bridge as it was, so no such reading exists. *)
Lemma no_drop_counter :
  ~ exists counter : MumbleBridge.t -> nat,
      counter (fst (send_pcm full_bridge (Bytes [x01; x00])))
      = S (counter full_bridge).
Proof.
  intros [counter H].
  pose proof (@send_pcm_full full_bridge (Bytes [x01; x00]) [x01; x00]
                eq_refl full_bridge_is_full) as E.
  revert H E. generalize full_bridge as b. intros b H E.
  rewrite E in H. exact (n_Sn _ H).
Qed.

(** C10.  For an object that is neither an [ndarray] nor a [bytes],
    [send_pcm] returns without raising, logs nothing and leaves the bridge
    as it was: queue and accumulator unchanged.  The whole system is then in
    the state it was in before the call, so nothing derived from the object
    can reach the session later. *)
Theorem send_pcm_ignores_other_objects (b : MumbleBridge.t) (pcm : obj) :
  is_ndarray pcm = false -> is_bytes pcm = false ->
  send_pcm b pcm = (b, [])
  /\ forall sys, step sys (Send pcm) = sys.
Proof.
  intros Hn Hb.
  assert (Hbuf : pcm_buffer pcm = None)
    by (destruct pcm; try discriminate; reflexivity).
  split.
  - unfold send_pcm. rewrite Hbuf. reflexivity.
  - intros [[wb ws wl] l]. cbn [step sys_worker w_bridge].
    unfold send_pcm. rewrite Hbuf. cbn. rewrite app_nil_r. reflexivity.
Qed.

(** A [bytearray] is not accepted. *)
Lemma send_pcm_ignores_other_objects_witness :
  (is_ndarray (ByteArray [x01; x00]) = false
   /\ is_bytes (ByteArray [x01; x00]) = false)
  /\ send_pcm MumbleBridge.init (ByteArray [x01; x00])
     = (MumbleBridge.init, [])
  /\ forall sys, step sys (Send (ByteArray [x01; x00])) = sys.
Proof.
  split; [split; reflexivity|].
  apply send_pcm_ignores_other_objects; reflexivity.
Defined.

End QueueClaims.

(** ** Claims on the transmit gate *)

Module GateClaims.

Import RemoteTrx.

Local Open Scope Q_scope.

Lemma Qle_bool_true (x y : Q) : x <= y -> Qle_bool x y = true.
Proof. intro H. apply Qle_bool_iff. exact H. Qed.

Lemma Qle_bool_false (x y : Q) : y < x -> Qle_bool x y = false.
Proof.
  intro H. destruct (Qle_bool x y) eqn:E; [|reflexivity].
  apply Qle_bool_iff in E. exfalso. apply (Qlt_not_le _ _ H E).
Qed.

(** C7.  While the gate is keyed, [start_tx] changes nothing but
    [last_key_time] and makes no call: no [ptt.key()], no new playback
    thread.  From idle it logs, calls [ptt.key()] once, sets
    [is_transmitting] and stamps [last_key_time]; it starts a playback
    thread exactly when [audio_tx_loop] finds none alive, and none when one
    is still alive.  A failing [ptt.key()] is logged and changes none of
    this. *)
Theorem start_tx_keys_once_and_starts_playback_if_none_alive
  (now : Q) (hw_ok : bool) (g : Globals) :
  (is_transmitting g = true ->
   start_tx now hw_ok g = (set_last_key_time g now, []))
  /\ (is_transmitting g = false ->
      is_transmitting (fst (start_tx now hw_ok g)) = true
      /\ last_key_time (fst (start_tx now hw_ok g)) = now
      /\ current_tx_dbfs (fst (start_tx now hw_ok g)) = current_tx_dbfs g
      /\ snd (start_tx now hw_ok g)
         = [Log (log_info "TX ON"); PttKey]
           ++ (if hw_ok then [] else [Log (log_error "PTT key() failed")])
           ++ (if tx_thread_alive g then [] else [StartPlayLoop])).
Proof.
  split; intro H; unfold start_tx, audio_tx_loop; rewrite H; cbn [negb].
  - reflexivity.
  - cbn [set_is_transmitting tx_thread_alive].
    destruct (tx_thread_alive g) eqn:Ha;
      unfold set_last_key_time, set_is_transmitting, set_tx_thread_alive;
      cbn; rewrite ?Ha, ?app_nil_r; destruct hw_ok; repeat split; reflexivity.
Qed.

(** The keyed gate keyed again; the idle gate of [idle_after_unkey], whose
    playback thread is still alive, keyed with a failing [ptt.key()]; the
    idle gate of [init], which has no playback thread. *)
Lemma start_tx_keys_once_and_starts_playback_if_none_alive_witness :
  (is_transmitting (fst (start_tx 1 true init)) = true
   /\ is_transmitting idle_after_unkey = false
   /\ is_transmitting init = false)
  /\ start_tx 2 true (fst (start_tx 1 true init))
     = (set_last_key_time (fst (start_tx 1 true init)) 2, [])
  /\ snd (start_tx 2 false idle_after_unkey)
     = [Log (log_info "TX ON"); PttKey; Log (log_error "PTT key() failed")]
  /\ snd (start_tx 1 true init)
     = [Log (log_info "TX ON"); PttKey; StartPlayLoop].
Proof.
  split; [repeat split; reflexivity|]. split; [|split].
  - apply (proj1 (start_tx_keys_once_and_starts_playback_if_none_alive
                    2 true (fst (start_tx 1 true init)))).
    reflexivity.
  - apply (proj2 (start_tx_keys_once_and_starts_playback_if_none_alive
                    2 false idle_after_unkey)).
    reflexivity.
  - apply (proj2 (start_tx_keys_once_and_starts_playback_if_none_alive
                    1 true init)).
    reflexivity.
Defined.

(** The gate of [idle_after_unkey] is idle and reached by one key request
    and one tail-hang check; a key request keys it and starts no playback
    thread, because the one started before is still alive. *)
Lemma key_request_from_idle_starts_no_playback :
  idle_after_unkey
  = {| is_transmitting := false; last_key_time := 0;
       tx_thread_alive := true; current_tx_dbfs := -(100) |}
  /\ is_transmitting (fst (start_tx 2 true idle_after_unkey)) = true
  /\ In PttKey (snd (start_tx 2 true idle_after_unkey))
  /\ ~ In StartPlayLoop (snd (start_tx 2 true idle_after_unkey)).
Proof.
  split; [reflexivity|]. split; [reflexivity|]. split.
  - right. left. reflexivity.
  - intros [H|[H|[]]]; discriminate H.
Qed.

Section TailHang.

Variable hw_ok : Q -> bool.

(** C2.  Key at 0, unkey request at 1, tail-hang 0.75 s; the thread of the
    unkey request wakes [late >= 0] seconds after its sleep is due.  Then
    [ptt.key()] is called once, at 0; [ptt.unkey()] is called once, at
    [1 + 0.75 + late], which is 1.75 when the wake-up is punctual and never
    earlier; and [is_transmitting] holds at every instant from 0 up to that
    call, and no longer from then on. *)
Theorem unkey_fires_once_tail_hang_elapsed (late : Q) :
  0 <= late ->
  let T : Q := 3 # 4 in
  let reqs := [(0, http_ptt_on); (1, http_ptt_off late)] in
  key_times T hw_ok reqs = [0]
  /\ unkey_times T hw_ok reqs = [1 + T + late]
  /\ 7 # 4 <= 1 + T + late
  /\ (late == 0 -> 1 + T + late == 7 # 4)
  /\ (forall t, 0 <= t -> t < 1 + T + late ->
        is_transmitting (globals_at T hw_ok reqs t) = true)
  /\ (forall t, 1 + T + late <= t ->
        is_transmitting (globals_at T hw_ok reqs t) = false).
Proof.
  intros Hlate T reqs. subst T.
  assert (Hag : agenda (3 # 4) reqs
                = [(0, RunStartTx); (1 + (3 # 4) + late, RunTailCheck)]).
  { subst reqs. cbn [agenda insert_action stop_tx_after_tail].
    rewrite Qle_bool_true by lra. reflexivity. }
  assert (Hchk : Qle_bool (3 # 4) (1 + (3 # 4) + late - 0) = true)
    by (apply Qle_bool_true; lra).
  split; [|split; [|split; [|split; [|split]]]].
  - unfold key_times. rewrite Hag. cbn [play act fst snd].
    unfold start_tx, _worker, audio_tx_loop. cbn.
    rewrite Hchk. cbn.
    destruct (hw_ok 0), (hw_ok (1 + (3 # 4) + late)); reflexivity.
  - unfold unkey_times. rewrite Hag. cbn [play act fst snd].
    unfold start_tx, _worker, audio_tx_loop. cbn.
    rewrite Hchk. cbn.
    destruct (hw_ok 0), (hw_ok (1 + (3 # 4) + late)); reflexivity.
  - lra.
  - intro H. lra.
  - intros t Ht0 Ht1. unfold globals_at. rewrite Hag. cbn [filter fst].
    rewrite (Qle_bool_true Ht0), (Qle_bool_false Ht1). reflexivity.
  - intros t Ht. unfold globals_at. rewrite Hag. cbn [filter fst].
    rewrite (Qle_bool_true Ht).
    rewrite Qle_bool_true by lra.
    cbn [play act fst snd]. unfold start_tx, _worker, audio_tx_loop. cbn.
    rewrite Hchk. reflexivity.
Qed.

(** C3.  Key at 0, unkey request at 0.5, key again at 0.9, tail-hang
    0.75 s.  The check of the unkey request runs at [0.5 + 0.75 + late]
    (1.25 when punctual); as long as it runs less than 0.75 s after the key
    at 0.9 it finds [last_key_time] = 0.9, changes nothing and calls
    nothing: [ptt.unkey()] is never called and [is_transmitting] holds at
    every instant from 0 on. *)
Theorem rekey_makes_pending_check_a_no_op (late : Q) :
  0 <= late -> late < 2 # 5 ->
  let T : Q := 3 # 4 in
  let reqs := [(0, http_ptt_on); (1 # 2, http_ptt_off late);
               (9 # 10, http_ptt_on)] in
  let check := (1 # 2) + T + late in
  let before := globals_at T hw_ok reqs (9 # 10) in
  agenda T reqs
  = [(0, RunStartTx); (9 # 10, RunStartTx); (check, RunTailCheck)]
  /\ (late == 0 -> check == 5 # 4)
  /\ is_transmitting before = true
  /\ last_key_time before = 9 # 10
  /\ check - last_key_time before < T
  /\ _worker T check (hw_ok check) before = (before, [])
  /\ unkey_times T hw_ok reqs = []
  /\ (forall t, 0 <= t ->
        is_transmitting (globals_at T hw_ok reqs t) = true).
Proof.
  intros Hlate0 Hlate1 T reqs check before. subst T.
  assert (Hag : agenda (3 # 4) reqs
                = [(0, RunStartTx); (9 # 10, RunStartTx);
                   (check, RunTailCheck)]).
  { subst reqs check. cbn [agenda insert_action stop_tx_after_tail].
    rewrite (@Qle_bool_false ((1 # 2) + (3 # 4) + late) (9 # 10)) by lra.
    cbn [insert_action].
    rewrite (@Qle_bool_true 0 (9 # 10)) by lra. reflexivity. }
  assert (Hbefore : before
                    = {| is_transmitting := true; last_key_time := 9 # 10;
                         tx_thread_alive := true;
                         current_tx_dbfs := -(100) |}).
  { subst before. unfold globals_at. rewrite Hag. cbn [filter fst].
    rewrite (@Qle_bool_true 0 (9 # 10)) by lra.
    rewrite (@Qle_bool_true (9 # 10) (9 # 10)) by lra.
    rewrite (@Qle_bool_false check (9 # 10)) by (subst check; lra).
    reflexivity. }
  assert (Hchk : Qle_bool (3 # 4) (check - (9 # 10)) = false)
    by (apply Qle_bool_false; subst check; lra).
  split; [exact Hag|].
  split; [intro H; subst check; lra|].
  rewrite Hbefore. cbn [is_transmitting last_key_time].
  split; [reflexivity|]. split; [reflexivity|].
  split; [subst check; lra|].
  split; [unfold _worker; cbn [is_transmitting last_key_time andb];
          rewrite Hchk; reflexivity|].
  split.
  - unfold unkey_times. rewrite Hag. cbn [play act fst snd].
    unfold start_tx, _worker, audio_tx_loop. cbn.
    fold check. rewrite Hchk. cbn.
    destruct (hw_ok 0); reflexivity.
  - intros t Ht. unfold globals_at. rewrite Hag. cbn [filter fst].
    rewrite (Qle_bool_true Ht).
    destruct (Qle_bool (9 # 10) t) eqn:E1; destruct (Qle_bool check t) eqn:E2;
      cbn [play act fst snd]; unfold start_tx, _worker, audio_tx_loop;
      cbn; fold check; rewrite ?Hchk; try reflexivity.
    exfalso. apply Qle_bool_iff in E2.
    assert (E3 : 9 # 10 <= t) by (subst check; lra).
    apply Qle_bool_iff in E3. congruence.
Qed.

End TailHang.

(** A punctual wake-up on hardware that never fails. *)
Lemma unkey_fires_once_tail_hang_elapsed_witness :
  0 <= 0
  /\ unkey_times (3 # 4) (fun _ => true)
       [(0, http_ptt_on); (1, http_ptt_off 0)]
     = [1 + (3 # 4) + 0].
Proof.
  assert (H : 0 <= 0) by (unfold Qle; simpl; lia).
  split; [exact H|].
  exact (proj1 (proj2
           (unkey_fires_once_tail_hang_elapsed (fun _ => true) H))).
Defined.

Lemma rekey_makes_pending_check_a_no_op_witness :
  (0 <= 0 /\ 0 < 2 # 5)
  /\ unkey_times (3 # 4) (fun _ => true)
       [(0, http_ptt_on); (1 # 2, http_ptt_off 0); (9 # 10, http_ptt_on)]
     = [].
Proof.
  assert (H0 : 0 <= 0) by (unfold Qle; simpl; lia).
  assert (H1 : 0 < 2 # 5) by reflexivity.
  split; [split; assumption|].
  exact (proj1 (proj2 (proj2 (proj2 (proj2 (proj2 (proj2
           (rekey_makes_pending_check_a_no_op (fun _ => true) H0 H1)))))))).
Defined.

End GateClaims.

(** ** Claims on the playback loop *)

Module PlayLoopClaims.

Import Py RemoteTrx.

Local Open Scope Q_scope.

Lemma audio_is_unbound : name_bound "audio" = false.
Proof. reflexivity. Qed.

(** C5.  While the gate is keyed: when no frame arrives the loop writes
    [CHUNK] zero samples and sets the TX level to -100, as claimed; but
    when a frame arrives the loop writes it and then raises [NameError]:
    the TX level keeps its old value, the stream is closed and the thread
    ends. *)
Theorem play_loop_frame_leaves_level_stale (CHUNK : Z) (p : Player) :
  is_transmitting (pl_globals p) = true ->
  (forall b,
      MumbleBridge.get_received (pl_bridge p) = (None, b) ->
      play_loop_iter CHUNK p
      = (write p (set_current_tx_dbfs (pl_globals p) (-(100))) b
           (repeat 0%Z (Z.to_nat CHUNK)), Next))
  /\ (forall frame samples b,
         MumbleBridge.get_received (pl_bridge p) = (Some frame, b) ->
         frame <> [] ->
         frombuffer_int16 frame = Some samples ->
         let p' := fst (play_loop_iter CHUNK p) in
         snd (play_loop_iter CHUNK p) = Raise "NameError"
         /\ pl_written p' = pl_written p ++ [samples]
         /\ current_tx_dbfs (pl_globals p') = current_tx_dbfs (pl_globals p)
         /\ pl_stream_open p' = false
         /\ tx_thread_alive (pl_globals p') = false).
Proof.
  intro Hk. split.
  - intros b Hget. unfold play_loop_iter. rewrite Hk, Hget. reflexivity.
  - intros frame samples b Hget Hne Hbuf p'. subst p'.
    unfold play_loop_iter. rewrite Hk, Hget. cbn [negb].
    destruct frame as [|x r]; [contradiction|].
    rewrite Hbuf. cbn. repeat split; reflexivity.
Qed.

(** The keyed gate, the level at -100, and one frame holding the sample
    32767 in the receive queue. *)
Lemma play_loop_frame_leaves_level_stale_witness :
  let p := keyed_player_with_frame in
  (is_transmitting (pl_globals p) = true
   /\ MumbleBridge.get_received (pl_bridge p)
      = (Some [xff; x7f], MumbleBridge.init)
   /\ [xff; x7f] <> []
   /\ frombuffer_int16 [xff; x7f] = Some [32767%Z])
  /\ snd (play_loop_iter 1024 p) = Raise "NameError"
  /\ pl_written (fst (play_loop_iter 1024 p)) = [[32767%Z]]
  /\ current_tx_dbfs (pl_globals (fst (play_loop_iter 1024 p))) = -(100).
Proof.
  intro p.
  assert (H1 : is_transmitting (pl_globals p) = true) by reflexivity.
  assert (H2 : MumbleBridge.get_received (pl_bridge p)
               = (Some [xff; x7f], MumbleBridge.init)) by reflexivity.
  assert (H3 : [xff; x7f] <> ([] : bytes)) by discriminate.
  assert (H4 : frombuffer_int16 [xff; x7f] = Some [32767%Z]) by reflexivity.
  split; [repeat split; assumption|].
  destruct (proj2 (play_loop_frame_leaves_level_stale 1024 p H1)
              [xff; x7f] [32767%Z] MumbleBridge.init H2 H3 H4)
    as (Hr & Hw & Hl & _).
  repeat split; assumption.
Defined.

End PlayLoopClaims.

(** ** Claims on the status snapshot *)

Module StatusClaims.

Import RemoteTrx.

Local Open Scope Q_scope.

(** Run on its own with the lock free, the thread of [start_tx] does what
    the critical section [start_tx] does. *)
Lemma start_tx_thread_alone (now : Q) (ok : bool) (g : Globals) :
  exec {| cfg_globals := g; cfg_lock := None;
          cfg_threads := [StartTx now ok k_lock]; cfg_effects := [] |}
       (repeat 0%nat 7)
  = {| cfg_globals := fst (start_tx now ok g); cfg_lock := None;
       cfg_threads := [StartTx now ok k_done];
       cfg_effects := snd (start_tx now ok g) |}.
Proof.
  destruct g as [tr lk alive lvl]. destruct tr, alive, ok; reflexivity.
Qed.

(** Likewise for the thread of the tail-hang check. *)
Lemma worker_thread_alone (T now : Q) (ok : bool) (g : Globals) :
  exec {| cfg_globals := g; cfg_lock := None;
          cfg_threads := [TailWorker T now ok w_lock]; cfg_effects := [] |}
       (repeat 0%nat 5)
  = {| cfg_globals := fst (_worker T now ok g); cfg_lock := None;
       cfg_threads := [TailWorker T now ok w_done];
       cfg_effects := snd (_worker T now ok g) |}.
Proof.
  destruct g as [tr lk alive lvl]. unfold _worker.
  cbn [is_transmitting last_key_time].
  destruct tr; cbn - [Qle_bool Qminus].
  - destruct (Qle_bool T (now - lk)); destruct ok; reflexivity.
  - reflexivity.
Qed.

(** Likewise [http_status]. *)
Lemma status_thread_alone (now : Q) (g : Globals) :
  option_map snapshot_of
    (nth_error
       (cfg_threads
          (exec {| cfg_globals := g; cfg_lock := None;
                   cfg_threads := [Status now st_cond];
                   cfg_effects := [] |}
                (repeat 0%nat 5))) 0)
  = Some (Some (http_status now g)).
Proof.
  destruct g as [tr lk alive lvl]. unfold http_status.
  cbn - [Qminus nonzero].
  destruct (nonzero lk); reflexivity.
Qed.

Lemma race_inv_step c i : race_inv c -> race_inv (sched_step c i).
Proof.
  intros (spc & kpc & Hth & Hg & Hl & Hx).
  destruct c as [g lock ths eff]. cbn in Hth, Hg, Hl. subst g lock ths.
  unfold sched_step. cbn [cfg_threads cfg_globals cfg_lock cfg_effects].
  destruct i as [|[|i]].
  - destruct spc, kpc; try discriminate Hx; cbn;
      try (eexists _, _; repeat split; reflexivity).
  - destruct spc, kpc; try discriminate Hx; cbn;
      try (eexists _, _; repeat split; reflexivity).
  - cbn. replace (nth_error (@nil Thread) i) with (@None Thread)
      by (destruct i; reflexivity).
    eexists _, _; repeat split; eassumption.
Qed.

Lemma race_inv_exec sched : forall c, race_inv c -> race_inv (exec c sched).
Proof.
  induction sched as [|i r IH]; intros c H; [exact H|].
  cbn [exec fold_left]. apply IH, race_inv_step, H.
Qed.

Lemma race_inv_start : race_inv status_race.
Proof. exists st_cond, k_lock. repeat split. Qed.

(** C9.  The gate is idle and was never keyed.  [http_status] evaluates
    [last_key_time] (0, so the age is [None]) before it takes [tx_lock];
    [start_tx] then runs its whole critical section; [http_status] then
    takes the lock and reads [is_transmitting].  The reply pairs [tx = True]
    with no key age.  That is not what [http_status] computes from the
    globals at any instant of this run at which the lock is free, nor of any
    other run of the two requests: with the lock free the globals only ever
    give (false, no age) or (true, age 0). *)
Theorem status_snapshot_mixes_two_states :
  let torn := {| tx := true; last_key_age := None |} in
  option_map snapshot_of
    (nth_error (cfg_threads (exec status_race status_race_schedule)) 0)
  = Some (Some torn)
  /\ existsb (Snapshot_eqb torn)
       (consistent_snapshots 10 (trace status_race status_race_schedule))
     = false
  /\ forall sched,
       let c := exec status_race sched in
       lock_free c = true ->
       http_status 10 (cfg_globals c)
       = {| tx := false; last_key_age := None |}
       \/ http_status 10 (cfg_globals c)
          = {| tx := true; last_key_age := Some (10 - 10) |}.
Proof.
  intro torn. split; [vm_compute; reflexivity|].
  split; [vm_compute; reflexivity|].
  intros sched c Hfree.
  destruct (race_inv_exec sched race_inv_start)
    as (spc & kpc & _ & Hg & Hl & _).
  fold c in Hg, Hl. unfold lock_free in Hfree. rewrite Hl in Hfree.
  rewrite Hg.
  destruct (status_in_lock spc); [discriminate|].
  destruct kpc; try discriminate Hfree; [left | right]; reflexivity.
Qed.

(** Before either request has taken a step the lock is free. *)
Lemma status_snapshot_mixes_two_states_witness :
  lock_free (exec status_race []) = true
  /\ (http_status 10 (cfg_globals (exec status_race []))
      = {| tx := false; last_key_age := None |}
      \/ http_status 10 (cfg_globals (exec status_race []))
         = {| tx := true; last_key_age := Some (10 - 10) |}).
Proof.
  assert (H : lock_free (exec status_race []) = true) by reflexivity.
  split; [exact H|].
  exact (proj2 (proj2 status_snapshot_mixes_two_states) [] H).
Defined.

End StatusClaims.

(* ================================================================== *)
(** * Further properties of the bridge *)

Module BridgeOpsFacts.

Import Py MumbleBridge TxWorker BridgeOps TxWorkerFacts QueueClaims.

Lemma get_received_n_spec (n : nat) :
  forall b,
    get_received_n n b
    = (map Some (firstn n (PyQueue.items (_rx_q b)))
       ++ repeat None (n - length (PyQueue.items (_rx_q b))),
       set_rx_q b {| PyQueue.maxsize := PyQueue.maxsize (_rx_q b);
                     PyQueue.items := skipn n (PyQueue.items (_rx_q b)) |}).
Proof.
  induction n as [|n IH]; intro b.
  - destruct b as [tq [m its] fb acc]. reflexivity.
  - cbn [get_received_n]. unfold get_received, PyQueue.get.
    destruct b as [tq [m its] fb acc]. cbn [_rx_q PyQueue.items PyQueue.maxsize].
    destruct its as [|x r]; rewrite IH; cbn; [|reflexivity].
    rewrite firstn_nil, skipn_nil, Nat.sub_0_r. reflexivity.
Qed.

(** X1.  Frames handed to [_on_sound_received] come out of [get_received]
    in the order they arrived, each once, and then [None]: [n] calls return
    the first [n] of the frames that were kept (the first 200 received when
    nothing was taken in between), followed by [None] for every further
    call. *)
Theorem received_frames_come_out_in_order (frames : list bytes) (n : nat) :
  let b := w_bridge (sys_worker (run boot (map SoundReceived frames))) in
  let kept := firstn 200 frames in
  fst (get_received_n n b)
  = map Some (firstn n kept) ++ repeat None (n - length kept).
Proof.
  intros b kept. rewrite get_received_n_spec. cbn [fst].
  destruct (@rx_flood_from 200 boot frames) as (_ & Hi & _);
    [lia | reflexivity | reflexivity |].
  fold b in Hi. rewrite Hi. reflexivity.
Qed.

Lemma tx_worker_iter_tx_q w :
  _tx_q (w_bridge (tx_worker_iter w))
  = match PyQueue.get (_tx_q (w_bridge w)) with
    | Some (_, q) => q
    | None => _tx_q (w_bridge w)
    end.
Proof.
  unfold tx_worker_iter.
  destruct (PyQueue.get (_tx_q (w_bridge w))) as [[chunk q]|]; [|reflexivity].
  pose proof (compute_frame_bytes_queues (w_session w)
                (set_accum (set_tx_q (w_bridge w) q)
                   (_accum (w_bridge w) ++ chunk))) as [H _].
  destruct (_compute_frame_bytes_if_ready _ _) as [b2 fb].
  cbn in H. destruct (negb (truthy fb)); exact H.
Qed.

Lemma step_accepted sys e :
  let b := w_bridge (sys_worker sys) in
  let b' := w_bridge (sys_worker (step sys e)) in
  _accum b' ++ concat (PyQueue.items (_tx_q b'))
  = _accum b ++ concat (PyQueue.items (_tx_q b))
    ++ concat (accepted sys [e]).
Proof.
  intros b b'. subst b b'.
  destruct sys as [[b s fb] l]. cbn [sys_worker w_bridge].
  destruct e as [pcm|pcm| |fs|]; cbn [step accepted sys_worker w_bridge].
  - unfold send_pcm. destruct (pcm_buffer pcm) as [buf|];
      [|cbn; rewrite app_nil_r; reflexivity].
    unfold PyQueue.put_nowait.
    destruct (PyQueue.full (_tx_q b)); cbn.
    + rewrite app_nil_r. reflexivity.
    + rewrite concat_app. cbn. rewrite !app_nil_r. reflexivity.
  - unfold _on_sound_received.
    destruct (PyQueue.put_nowait (_rx_q b) pcm); cbn;
      rewrite app_nil_r; reflexivity.
  - unfold get_received. destruct (PyQueue.get (_rx_q b)) as [[x q]|]; cbn;
      rewrite app_nil_r; reflexivity.
  - cbn. rewrite app_nil_r. reflexivity.
  - rewrite tx_worker_iter_accum, tx_worker_iter_tx_q. cbn [w_bridge].
    unfold PyQueue.get. destruct b as [[m its] rq fbs acc].
    cbn [_tx_q _accum PyQueue.items PyQueue.maxsize].
    destruct its as [|chunk r]; cbn [concat PyQueue.items];
      rewrite <- ?app_assoc, ?app_nil_r; reflexivity.
Qed.

Lemma accepted_cons sys e r :
  accepted sys (e :: r) = accepted sys [e] ++ accepted (step sys e) r.
Proof.
  cbn [accepted]. destruct e as [pcm|pcm| |fs|]; try reflexivity.
  destruct (pcm_buffer pcm) as [buf|]; [|reflexivity].
  destruct (PyQueue.full _); reflexivity.
Qed.

(** X2.  Between [send_pcm] and the accumulator nothing is lost, doubled or
    reordered: at any moment the accumulator followed by the chunks still
    queued holds exactly the bytes that were there to begin with followed by
    every buffer [send_pcm] has put on the queue since, in order. *)
Theorem accepted_bytes_reach_the_accumulator (evs : list Event) :
  forall sys,
    let b := w_bridge (sys_worker sys) in
    let b' := w_bridge (sys_worker (run sys evs)) in
    _accum b' ++ concat (PyQueue.items (_tx_q b'))
    = _accum b ++ concat (PyQueue.items (_tx_q b))
      ++ concat (accepted sys evs).
Proof.
  induction evs as [|e r IH]; intro sys.
  - cbn. rewrite app_nil_r. reflexivity.
  - cbn zeta in *. cbn [run fold_left]. fold (run (step sys e) r).
    rewrite IH, accepted_cons, concat_app.
    pose proof (step_accepted sys e) as H. cbn zeta in H.
    rewrite app_assoc, H, <- !app_assoc. reflexivity.
Qed.

Lemma Z_of_byte_of_Z (z : Z) : Z_of_byte (byte_of_Z z) = z mod 256.
Proof.
  unfold Z_of_byte, byte_of_Z.
  assert (Hr : 0 <= z mod 256 < 256) by (apply Z.mod_pos_bound; lia).
  destruct (Byte.of_N (Z.to_N (z mod 256))) as [b|] eqn:E.
  - apply Byte.to_of_N in E. rewrite E. apply Z2N.id. lia.
  - apply Byte.of_N_None_iff in E. lia.
Qed.

Lemma int16_bytes_value (z : Z) :
  let u := z mod 65536 in
  Z_of_byte (byte_of_Z (Z.land u 255))
  + 256 * Z_of_byte (byte_of_Z (Z.shiftr u 8)) = u.
Proof.
  intro u. assert (Hu : 0 <= u < 65536) by (apply Z.mod_pos_bound; lia).
  rewrite !Z_of_byte_of_Z.
  change 255 with (Z.ones 8). rewrite Z.land_ones by lia.
  rewrite Z.shiftr_div_pow2 by lia. change (2 ^ 8) with 256.
  rewrite Z.mod_mod by lia.
  rewrite (Z.mod_small (u / 256) 256)
    by (split; [apply Z.div_pos; lia | apply Z.div_lt_upper_bound; lia]).
  rewrite Z.add_comm. symmetry. apply Z.div_mod. lia.
Qed.

Lemma wrap_int16_mod (z : Z) : wrap_int16 (z mod 65536) = wrap_int16 z.
Proof. unfold wrap_int16. rewrite Z.mod_mod by lia. reflexivity. Qed.

Lemma wrap_int16_in_range (z : Z) :
  -32768 <= z < 32768 -> wrap_int16 z = z.
Proof.
  intro H. unfold wrap_int16.
  destruct (Z.ltb_spec (z mod 65536) 32768) as [L|L].
  - destruct (Z.neg_nonneg_cases z) as [N|N].
    + rewrite <- (Z.mod_add z 1 65536) in L |- * by lia.
      rewrite Z.mod_small in L |- * by lia. lia.
    + apply Z.mod_small. lia.
  - destruct (Z.neg_nonneg_cases z) as [N|N].
    + rewrite <- (Z.mod_add z 1 65536) by lia.
      rewrite Z.mod_small by lia. lia.
    + rewrite Z.mod_small in L by lia. lia.
Qed.

Lemma wrap_int16_idem (z : Z) : wrap_int16 (wrap_int16 z) = wrap_int16 z.
Proof.
  apply wrap_int16_in_range. unfold wrap_int16.
  assert (H : 0 <= z mod 65536 < 65536) by (apply Z.mod_pos_bound; lia).
  destruct (Z.ltb_spec (z mod 65536) 32768); lia.
Qed.

Lemma frombuffer_tobytes (l : list Z) :
  frombuffer_int16 (flat_map int16_to_bytes l) = Some (map wrap_int16 l).
Proof.
  induction l as [|z l IH]; [reflexivity|].
  cbn [flat_map map]. unfold int16_to_bytes at 1.
  cbn [app frombuffer_int16]. rewrite IH.
  pose proof (int16_bytes_value z) as H. cbn zeta in H. rewrite H.
  rewrite wrap_int16_mod. reflexivity.
Qed.

Lemma tobytes_length (l : list Z) :
  length (flat_map int16_to_bytes l) = (2 * length l)%nat.
Proof. induction l as [|z l IH]; cbn; [reflexivity|]. rewrite IH. lia. Qed.

(** X3.  What [send_pcm] queues for an array is two bytes per sample, and
    decoding those bytes as the playback loop does ([np.frombuffer] with
    dtype int16) gives the samples back wrapped into the int16 range: as
    they were when every sample fits in 16 bits. *)
Theorem queued_array_decodes_to_its_samples (a : ndarray) :
  exists buf,
    pcm_buffer (Ndarray a) = Some buf
    /\ length buf = (2 * length (nd_data a))%nat
    /\ frombuffer_int16 buf = Some (map wrap_int16 (nd_data a))
    /\ (Forall (fun z => -32768 <= z < 32768) (nd_data a) ->
        frombuffer_int16 buf = Some (nd_data a)).
Proof.
  assert (Hin : Forall (fun z => -32768 <= z < 32768) (nd_data a) ->
                map wrap_int16 (nd_data a) = nd_data a).
  { intro H. induction H as [|z l Hz _ IH]; [reflexivity|].
    cbn. rewrite IH, wrap_int16_in_range by assumption. reflexivity. }
  eexists. split; [reflexivity|].
  unfold tobytes.
  destruct (negb (dtype_eqb (nd_dtype a) int16)); cbn [nd_data astype_int16].
  - rewrite tobytes_length, length_map, frombuffer_tobytes, map_map.
    rewrite (map_ext _ _ wrap_int16_idem).
    repeat split. intro H. rewrite (Hin H). reflexivity.
  - rewrite tobytes_length, frombuffer_tobytes.
    repeat split. intro H. rewrite (Hin H). reflexivity.
Qed.

(** The extreme samples of an int16 block. *)
Lemma queued_array_decodes_to_its_samples_witness :
  Forall (fun z => -32768 <= z < 32768) [-32768; -1; 0; 32767]
  /\ exists buf,
      pcm_buffer (Ndarray {| nd_dtype := int16;
                             nd_data := [-32768; -1; 0; 32767] |})
      = Some buf
      /\ frombuffer_int16 buf = Some [-32768; -1; 0; 32767].
Proof.
  assert (H : Forall (fun z => -32768 <= z < 32768) [-32768; -1; 0; 32767])
    by (repeat constructor; lia).
  split; [exact H|].
  destruct (queued_array_decodes_to_its_samples
              {| nd_dtype := int16; nd_data := [-32768; -1; 0; 32767] |})
    as (buf & Hb & _ & _ & Hr).
  exists buf. split; [exact Hb | exact (Hr H)].
Defined.

Lemma drain_loop_spec (fuel : nat) :
  forall (q : PyQueue.t bytes) (s : Session),
    (length (PyQueue.items q) < fuel)%nat ->
    drain_loop fuel q s
    = ({| PyQueue.maxsize := PyQueue.maxsize q; PyQueue.items := [] |},
       {| encoder_framesize := encoder_framesize s;
          add_sound_calls := add_sound_calls s ++ PyQueue.items q |}).
Proof.
  induction fuel as [|fuel IH]; intros [m its] s Hlen; [cbn in Hlen; lia|].
  cbn [drain_loop]. unfold PyQueue.get. cbn [PyQueue.items PyQueue.maxsize] in *.
  destruct its as [|x r].
  - rewrite app_nil_r. destruct s; reflexivity.
  - rewrite IH by (cbn in *; lia). cbn. rewrite <- app_assoc. reflexivity.
Qed.

(** X4.  [drain_tx] empties the send queue and hands the session every
    queued chunk exactly as it was queued, in order, whatever the frame
    size: it bypasses the accumulator, which it leaves untouched together
    with the frame size and the receive queue. *)
Theorem drain_tx_passes_queued_chunks_unframed (b : t) (s : Session) :
  let b' := fst (drain_tx b s) in
  let s' := snd (drain_tx b s) in
  PyQueue.items (_tx_q b') = []
  /\ PyQueue.maxsize (_tx_q b') = PyQueue.maxsize (_tx_q b)
  /\ add_sound_calls s' = add_sound_calls s ++ PyQueue.items (_tx_q b)
  /\ _accum b' = _accum b
  /\ _frame_bytes b' = _frame_bytes b
  /\ _rx_q b' = _rx_q b.
Proof.
  unfold drain_tx. rewrite drain_loop_spec by lia. cbn. repeat split.
Qed.

(** X5.  Once [_frame_bytes] holds a non-zero integer, nothing that
    happens while the sender task runs changes it: a different frame
    duration reported by the encoder later is never picked up. *)
Theorem frame_size_is_never_recomputed (sys : System) (evs : list Event) :
  truthy (_frame_bytes (w_bridge (sys_worker sys))) = true ->
  _frame_bytes (w_bridge (sys_worker (run sys evs)))
  = _frame_bytes (w_bridge (sys_worker sys))
  /\ forall s,
       _compute_frame_bytes_if_ready s (w_bridge (sys_worker (run sys evs)))
       = (w_bridge (sys_worker (run sys evs)),
          _frame_bytes (w_bridge (sys_worker sys))).
Proof.
  intro Ht. pose proof (run_frame_bytes evs sys Ht) as H.
  split; [exact H|]. intro s.
  unfold _compute_frame_bytes_if_ready. rewrite H, Ht. reflexivity.
Qed.

(** The encoder comes up with 20 ms frames and later reports 10 ms. *)
Lemma frame_size_is_never_recomputed_witness :
  let sys := run boot frame_ready_events in
  let evs := [Encoder (Some (1 # 100)%Q); Send capture_block; Iterate] in
  truthy (_frame_bytes (w_bridge (sys_worker sys))) = true
  /\ _frame_bytes (w_bridge (sys_worker (run sys evs))) = Some 1920.
Proof.
  intros sys evs.
  assert (H : truthy (_frame_bytes (w_bridge (sys_worker sys))) = true)
    by (vm_compute; reflexivity).
  split; [exact H|].
  rewrite (proj1 (frame_size_is_never_recomputed sys evs H)).
  vm_compute. reflexivity.
Defined.

Lemma compute_returns_attribute s b :
  snd (_compute_frame_bytes_if_ready s b)
  = _frame_bytes (fst (_compute_frame_bytes_if_ready s b)).
Proof.
  unfold _compute_frame_bytes_if_ready.
  destruct (truthy (_frame_bytes b)); [reflexivity|].
  destruct (encoder_framesize s) as [fs|]; [|reflexivity].
  destruct (truthyQ (Some fs)); reflexivity.
Qed.

Lemma pushed_cons sys e r :
  pushed sys (e :: r) = pushed sys [e] ++ pushed (step sys e) r.
Proof.
  cbn [pushed]. destruct e; try reflexivity.
  destruct (PyQueue.get _) as [[chunk q]|]; reflexivity.
Qed.

Lemma step_local_agrees sys e taken :
  local_agrees sys taken ->
  local_agrees (step sys e) (taken ++ pushed sys [e]).
Proof.
  unfold local_agrees. intro H.
  destruct e as [pcm|pcm| |fs|]; cbn [step pushed].
  - rewrite app_nil_r. unfold send_pcm.
    destruct (pcm_buffer pcm) as [buf|]; [|exact H].
    destruct (PyQueue.put_nowait _ buf); exact H.
  - rewrite app_nil_r. unfold _on_sound_received.
    destruct (PyQueue.put_nowait _ pcm); exact H.
  - rewrite app_nil_r. cbn. unfold get_received.
    destruct (PyQueue.get (_rx_q _)) as [[x q]|]; exact H.
  - rewrite app_nil_r. exact H.
  - cbn [sys_worker]. unfold tx_worker_iter.
    destruct (PyQueue.get (_tx_q (w_bridge (sys_worker sys))))
      as [[chunk q]|]; [|rewrite app_nil_r; exact H].
    pose proof (compute_returns_attribute (w_session (sys_worker sys))
                  (set_accum (set_tx_q (w_bridge (sys_worker sys)) q)
                     (_accum (w_bridge (sys_worker sys)) ++ chunk))) as Hc.
    destruct (_compute_frame_bytes_if_ready _ _) as [b2 fb]. cbn in Hc.
    assert (Hne : taken ++ [chunk] <> [])
      by (intro E; apply app_eq_nil in E; destruct E; discriminate).
    destruct (negb (truthy fb)); cbn; split; assumption.
Qed.

Lemma run_local_agrees evs :
  forall sys taken,
    local_agrees sys taken ->
    local_agrees (run sys evs) (taken ++ pushed sys evs).
Proof.
  induction evs as [|e r IH]; intros sys taken H.
  - cbn. rewrite app_nil_r. exact H.
  - cbn [run fold_left]. fold (run (step sys e) r).
    rewrite pushed_cons, app_assoc. apply IH, step_local_agrees, H.
Qed.

(** X7.  How the sender task ends when it never learnt a frame size: if
    it never took a chunk from the queue, its frame loop reads an
    unassigned local and the thread dies with [UnboundLocalError]; if it
    took chunks but the encoder never reported a frame duration, the loop
    compares an [int] with [None] and the thread dies with [TypeError].
    Either way nothing was passed to the session.  Once a chunk was taken,
    the local the frame loop uses is the attribute [_frame_bytes]. *)
Theorem sender_task_dies_without_frame_size (evs : list Event) :
  let w := sys_worker (run boot evs) in
  (pushed boot evs = [] ->
   _tx_worker boot evs
   = Raised "UnboundLocalError" (w_bridge w) (w_session w))
  /\ (pushed boot evs <> [] -> _frame_bytes (w_bridge w) = None ->
      _tx_worker boot evs = Raised "TypeError" (w_bridge w) (w_session w))
  /\ (pushed boot evs <> [] ->
      w_frame_bytes w = Bound (_frame_bytes (w_bridge w)))
  /\ add_sound_calls (w_session w) = [].
Proof.
  intro w.
  assert (H : local_agrees (run boot evs) (pushed boot evs)).
  { apply (@run_local_agrees evs boot []). reflexivity. }
  unfold local_agrees in H. fold w in H. unfold _tx_worker, tx_worker_exit.
  fold w. split; [|split; [|split]].
  - intro E. destruct (w_frame_bytes w) as [|v]; [reflexivity|].
    destruct H as [H _]. contradiction.
  - intros Hne Hfb. destruct (w_frame_bytes w) as [|v]; [contradiction|].
    destruct H as [_ ->]. rewrite Hfb. reflexivity.
  - intro Hne. destruct (w_frame_bytes w) as [|v]; [contradiction|].
    destruct H as [_ ->]. reflexivity.
  - exact (run_sent evs boot).
Qed.

(** A bridge that is stopped before anything was sent, and one that got a
    chunk while the encoder was not ready. *)
Lemma sender_task_dies_without_frame_size_witness :
  let evs := [Send (Bytes [x01; x00]); Iterate] in
  (pushed boot [] = []
   /\ pushed boot evs <> []
   /\ _frame_bytes (w_bridge (sys_worker (run boot evs))) = None)
  /\ _tx_worker boot []
     = Raised "UnboundLocalError" (w_bridge (sys_worker boot))
         (w_session (sys_worker boot))
  /\ _tx_worker boot evs
     = Raised "TypeError" (w_bridge (sys_worker (run boot evs)))
         (w_session (sys_worker (run boot evs))).
Proof.
  intro evs.
  assert (H1 : pushed boot [] = []) by reflexivity.
  assert (H2 : pushed boot evs <> []) by discriminate.
  assert (H3 : _frame_bytes (w_bridge (sys_worker (run boot evs))) = None)
    by reflexivity.
  split; [repeat split; assumption|]. split.
  - exact (proj1 (sender_task_dies_without_frame_size []) H1).
  - exact (proj1 (proj2 (sender_task_dies_without_frame_size evs)) H2 H3).
Defined.

Lemma concat_length_whole (fb : Z) (frames : list bytes) :
  Forall (fun f => Z.of_nat (length f) = fb) frames ->
  Z.of_nat (length (concat frames)) = fb * Z.of_nat (length frames).
Proof.
  induction 1 as [|f l Hf _ IH]; [cbn; lia|].
  cbn [concat length]. rewrite length_app. lia.
Qed.

Lemma framed_count fb accum frames rest :
  0 < fb -> Framed fb accum frames rest ->
  Z.of_nat (length frames) = Z.of_nat (length accum) / fb
  /\ Z.of_nat (length rest) = Z.of_nat (length accum) mod fb.
Proof.
  intros Hfb [Hc Hw Hr].
  assert (E : Z.of_nat (length accum)
              = fb * Z.of_nat (length frames) + Z.of_nat (length rest)).
  { rewrite <- Hc, length_app, Nat2Z.inj_add, (concat_length_whole Hw).
    reflexivity. }
  split.
  - apply Z.div_unique with (r := Z.of_nat (length rest)); [lia | exact E].
  - apply Z.mod_unique with (q := Z.of_nat (length frames)); [lia | exact E].
Qed.

(** X8.  With a positive frame size of [fb] bytes, the sender task at
    shutdown makes exactly [total / fb] calls of [add_sound] and leaves
    [total mod fb] bytes in the accumulator, [total] being the number of
    bytes it took from the queue. *)
Theorem shutdown_sends_quotient_keeps_remainder (evs : list Event) (fb : Z) :
  0 < fb ->
  w_frame_bytes (sys_worker (run boot evs)) = Bound (Some fb) ->
  let total := Z.of_nat (length (concat (pushed boot evs))) in
  exists b' s',
    _tx_worker boot evs = Returned b' s'
    /\ Z.of_nat (length (add_sound_calls s')) = total / fb
    /\ Z.of_nat (length (_accum b')) = total mod fb.
Proof.
  intros Hfb Hloc total. unfold _tx_worker, tx_worker_exit. rewrite Hloc.
  set (w := sys_worker (run boot evs)).
  destruct (@FrameLoopFacts.frame_loop_fuel
              (S (length (_accum (w_bridge w)))) fb
              (_accum (w_bridge w)) (w_session w) Hfb
              (Nat.lt_succ_diag_r _))
    as (frames & rest & Hrun & Hfr).
  rewrite Hrun. eexists _, _. split; [reflexivity|].
  assert (Hsent : add_sound_calls (w_session w) = [])
    by exact (run_sent evs boot).
  assert (Hacc : _accum (w_bridge w) = concat (pushed boot evs))
    by (subst w; rewrite run_accum; reflexivity).
  cbn. rewrite Hsent. cbn [app].
  rewrite Hacc in Hfr. exact (framed_count Hfb Hfr).
Qed.

(** Five bytes and two-byte frames: two frames sent, one byte kept. *)
Lemma shutdown_sends_quotient_keeps_remainder_witness :
  let evs := [Send (Bytes [x01; x02; x03]); Encoder (Some (1 # 48000)%Q);
              Iterate; Send (Bytes [x04; x05]); Iterate] in
  (0 < 2 /\ w_frame_bytes (sys_worker (run boot evs)) = Bound (Some 2))
  /\ exists b' s',
      _tx_worker boot evs = Returned b' s'
      /\ Z.of_nat (length (add_sound_calls s')) = 5 / 2
      /\ Z.of_nat (length (_accum b')) = 5 mod 2.
Proof.
  intro evs.
  assert (H1 : 0 < 2) by lia.
  assert (H2 : w_frame_bytes (sys_worker (run boot evs)) = Bound (Some 2))
    by reflexivity.
  split; [split; assumption|].
  exact (shutdown_sends_quotient_keeps_remainder evs H1 H2).
Defined.

(** X9.  A frame size of zero or less makes the frame loop at shutdown
    endless: its condition [len(self._accum) >= frame_bytes] stays true, so
    no number of iterations ends it and [_tx_worker] never returns.  Zero
    arises when the encoder reports a frame shorter than one byte of
    audio. *)
Theorem nonpositive_frame_size_never_returns (evs : list Event) (fb : Z) :
  fb <= 0 ->
  w_frame_bytes (sys_worker (run boot evs)) = Bound (Some fb) ->
  _tx_worker boot evs = Spinning
  /\ forall fuel,
       frame_loop fuel fb (_accum (w_bridge (sys_worker (run boot evs))))
         (w_session (sys_worker (run boot evs))) = None.
Proof.
  intros Hfb Hloc. unfold _tx_worker, tx_worker_exit. rewrite Hloc.
  rewrite FrameLoopFacts.frame_loop_spins by exact Hfb.
  split; [reflexivity|]. intro fuel.
  apply FrameLoopFacts.frame_loop_spins. exact Hfb.
Qed.

(** An encoder frame of a hundred-thousandth of a second. *)
Lemma nonpositive_frame_size_never_returns_witness :
  let evs := [Encoder (Some (1 # 100000)%Q); Send (Bytes [x01; x00]);
              Iterate] in
  (0 <= 0 /\ w_frame_bytes (sys_worker (run boot evs)) = Bound (Some 0))
  /\ _tx_worker boot evs = Spinning.
Proof.
  intro evs.
  assert (H1 : 0 <= 0) by lia.
  assert (H2 : w_frame_bytes (sys_worker (run boot evs)) = Bound (Some 0))
    by reflexivity.
  split; [split; assumption|].
  exact (proj1 (nonpositive_frame_size_never_returns evs H1 H2)).
Defined.

Lemma fold_ping_snoc lp ticks t p :
  fold_left (ping_tick lp) (ticks ++ [t]) p
  = ping_tick lp (fold_left (ping_tick lp) ticks p) t.
Proof. rewrite fold_left_app. reflexivity. Qed.

Lemma last_ok_snoc ticks t :
  last_ok (ticks ++ [t])
  = if snd t then Some (fst t) else last_ok ticks.
Proof.
  unfold last_ok. rewrite rev_app_distr. cbn [rev app find].
  destruct (snd t); reflexivity.
Qed.

Lemma ping_ticks_spec lp ticks :
  forall p,
    let p' := fold_left (ping_tick lp) ticks p in
    _last_ping_ts p'
    = match last_ok ticks with
      | Some t => Some t
      | None => _last_ping_ts p
      end
    /\ length (filter is_warning (ping_log p'))
       = (length (filter is_warning (ping_log p))
          + length (filter (fun t => negb (snd t)) ticks))%nat.
Proof.
  induction ticks as [|t ticks IH] using rev_ind; intro p.
  - cbn. split; [reflexivity | lia].
  - cbn zeta. rewrite fold_ping_snoc, last_ok_snoc.
    destruct (IH p) as [Hts Hlog]. cbn zeta in Hts, Hlog.
    set (q := fold_left (ping_tick lp) ticks p) in *.
    unfold ping_tick. rewrite (filter_app _ ticks [t]), length_app.
    destruct t as [tm ok]. cbn [fst snd filter].
    destruct ok; cbn [_last_ping_ts ping_log negb filter length].
    + split; [reflexivity|].
      rewrite filter_app, length_app, Hlog.
      destruct lp; cbn; lia.
    + split; [exact Hts|].
      rewrite filter_app, length_app, Hlog. cbn. lia.
Qed.

(** X10.  After the keepalive thread has run, [_last_ping_ts] is the time
    of the last ping that succeeded, or what it was before when none did: a
    failed ping leaves it alone.  Each failed ping logs exactly one warning
    and the thread goes on to the next tick. *)
Theorem last_ping_is_last_success
  (log_pings : bool) (ticks : list (Q * bool)) (p : Pinger) :
  let p' := _ping_worker log_pings ticks p in
  _last_ping_ts p'
  = match last_ok ticks with
    | Some t => Some t
    | None => _last_ping_ts p
    end
  /\ length (filter is_warning (ping_log p'))
     = (length (filter is_warning (ping_log p))
        + length (filter (fun t => negb (snd t)) ticks))%nat.
Proof.
  intro p'. subst p'. unfold _ping_worker.
  cbn [_last_ping_ts ping_log].
  destruct (ping_ticks_spec log_pings ticks
              {| _last_ping_ts := _last_ping_ts p;
                 ping_log := ping_log p
                             ++ [log_info "[MumbleBridge] Ping worker started"] |})
    as [Hts Hlog].
  cbn zeta in Hts, Hlog. cbn [_last_ping_ts ping_log] in Hts, Hlog.
  split; [exact Hts|].
  rewrite filter_app, length_app, Hlog, filter_app, length_app. cbn. lia.
Qed.

(** X11.  Building a bridge fails with [ValueError] exactly when the
    server or the user is missing or empty, the server being checked first;
    a sample rate other than 48000 or a channel count other than 1 only
    logs a warning, and the bridge built is the same: empty queues of
    capacity 200, no frame size, empty accumulator. *)
Theorem bridge_needs_server_and_user
  (server user : option string) (sample_rate channels : Z) :
  (str_truthy server = false ->
   __init__ server user sample_rate channels
   = ValueError "server is required")
  /\ (str_truthy server = true -> str_truthy user = false ->
      __init__ server user sample_rate channels
      = ValueError "user is required")
  /\ (str_truthy server = true -> str_truthy user = true ->
      exists warnings,
        __init__ server user sample_rate channels
        = Built MumbleBridge.init warnings
        /\ (warnings = [] <-> sample_rate = 48000 /\ channels = 1)).
Proof.
  unfold __init__, _PYMUMBLE_SR. repeat split.
  - intros ->. reflexivity.
  - intros -> ->. reflexivity.
  - intros -> ->. cbn [negb]. eexists. split; [reflexivity|].
    destruct (Z.eqb_spec sample_rate 48000);
      destruct (Z.eqb_spec channels 1); cbn; split;
      try discriminate; try tauto; intros [? ?]; contradiction.
Qed.

(** No server configured; no user; both given at 44.1 kHz. *)
Lemma bridge_needs_server_and_user_witness :
  (str_truthy None = false
   /\ str_truthy (Some "10.0.0.2"%string) = true
   /\ str_truthy (Some ""%string) = false
   /\ str_truthy (Some "shackpi"%string) = true)
  /\ __init__ None (Some "shackpi"%string) 48000 1
     = ValueError "server is required"
  /\ __init__ (Some "10.0.0.2"%string) (Some ""%string) 48000 1
     = ValueError "user is required"
  /\ exists warnings,
      __init__ (Some "10.0.0.2"%string) (Some "shackpi"%string) 44100 1
      = Built MumbleBridge.init warnings.
Proof.
  split; [repeat split|]. split; [|split].
  - apply (proj1 (bridge_needs_server_and_user None
                    (Some "shackpi"%string) 48000 1)). reflexivity.
  - apply (proj1 (proj2 (bridge_needs_server_and_user
                           (Some "10.0.0.2"%string) (Some ""%string)
                           48000 1))); reflexivity.
  - destruct (proj2 (proj2 (bridge_needs_server_and_user
                              (Some "10.0.0.2"%string)
                              (Some "shackpi"%string) 44100 1))
                eq_refl eq_refl) as (w & Hw & _).
    exists w. exact Hw.
Defined.

End BridgeOpsFacts.


(* ================================================================== *)
(** * Further properties of the transceiver side *)

Module TrxOpsFacts.

Import Py RemoteTrx TrxOps GateClaims.

Local Open Scope Q_scope.

Lemma starts_with_spec (needle : pystr) :
  forall hay,
    starts_with needle hay = true <-> exists post, hay = needle ++ post.
Proof.
  induction needle as [|a needle IH]; intro hay.
  - cbn. split; [intros _; exists hay; reflexivity | reflexivity].
  - destruct hay as [|b hay]; cbn [starts_with app].
    + split; [discriminate | intros [post E]; discriminate].
    + rewrite andb_true_iff, N.eqb_eq, IH. split.
      * intros [-> [post ->]]. exists post. reflexivity.
      * intros [post E]. injection E as -> ->.
        split; [reflexivity | exists post; reflexivity].
Qed.

(** The substring test means what it should. *)
Lemma contains_spec (needle hay : pystr) :
  contains needle hay = true
  <-> exists pre post, hay = pre ++ needle ++ post.
Proof.
  induction hay as [|c hay IH].
  - cbn [contains]. rewrite orb_false_r, starts_with_spec. split.
    + intros [post E]. exists [], post. exact E.
    + intros (pre & post & E). destruct pre; [|discriminate].
      exists post. exact E.
  - cbn [contains]. rewrite orb_true_iff, IH, starts_with_spec. split.
    + intros [[post E]|(pre & post & E)].
      * exists [], post. exact E.
      * exists (c :: pre), post. cbn. rewrite E. reflexivity.
    + intros (pre & post & E). destruct pre as [|a pre].
      * left. exists post. exact E.
      * right. injection E as _ E. exists pre, post. exact E.
Qed.

Section FindDeviceFacts.

Variable str_lower : pystr -> pystr.

Lemma find_from_cons idx wanted is_input dev devs :
  find_from str_lower idx wanted is_input (dev :: devs)
  = if usable str_lower wanted is_input dev then Some idx
    else find_from str_lower (S idx) wanted is_input devs.
Proof.
  cbn [find_from]. unfold usable. destruct (contains _ _); [|reflexivity].
  destruct is_input; cbn;
    destruct (0 <? max_input_channels dev)%Z;
    destruct (0 <? max_output_channels dev)%Z; reflexivity.
Qed.

Lemma find_from_some (wanted : pystr) (is_input : bool) (devs : list Device) :
  forall idx i,
    find_from str_lower idx wanted is_input devs = Some i
    <-> exists k d,
          i = (idx + k)%nat
          /\ nth_error devs k = Some d
          /\ usable str_lower wanted is_input d = true
          /\ forall j d', (j < k)%nat -> nth_error devs j = Some d' ->
                          usable str_lower wanted is_input d' = false.
Proof.
  induction devs as [|dev devs IH]; intros idx i.
  - cbn. split; [discriminate|].
    intros (k & d & _ & H & _). destruct k; discriminate.
  - rewrite find_from_cons.
    destruct (usable str_lower wanted is_input dev) eqn:U.
    + split.
      * intro E. injection E as <-. exists 0%nat, dev.
        repeat split; [lia | assumption | intros j d' Hj; lia].
      * intros (k & d & -> & Hn & Hu & Hmin). destruct k as [|k].
        -- f_equal. lia.
        -- specialize (Hmin 0%nat dev (Nat.lt_0_succ k) eq_refl). congruence.
    + rewrite IH. split.
      * intros (k & d & -> & Hn & Hu & Hmin). exists (S k), d.
        repeat split; [lia | exact Hn | exact Hu |].
        intros [|j] d' Hj Hd'.
        -- cbn in Hd'. injection Hd' as <-. exact U.
        -- apply (Hmin j d'); [lia | exact Hd'].
      * intros (k & d & -> & Hn & Hu & Hmin). destruct k as [|k].
        -- cbn in Hn. injection Hn as <-. congruence.
        -- exists k, d. repeat split; [lia | exact Hn | exact Hu |].
           intros j d' Hj Hd'. apply (Hmin (S j) d'); [lia | exact Hd'].
Qed.

Lemma find_from_none (wanted : pystr) (is_input : bool) (devs : list Device) :
  forall idx,
    find_from str_lower idx wanted is_input devs = None
    <-> forall d, In d devs -> usable str_lower wanted is_input d = false.
Proof.
  induction devs as [|dev devs IH]; intro idx.
  - cbn. split; [intros _ d [] | reflexivity].
  - rewrite find_from_cons.
    destruct (usable str_lower wanted is_input dev) eqn:U.
    + split; [discriminate|]. intro H.
      rewrite (H dev (in_eq _ _)) in U. discriminate.
    + rewrite IH. split.
      * intros H d [<-|Hd]; [exact U | exact (H d Hd)].
      * intros H d Hd. apply H. right. exact Hd.
Qed.

End FindDeviceFacts.

(** X12.  Whatever [str.lower()] does to a name, [find_device_index]
    returns the index of the first listed device whose lowered name
    contains the lowered wanted name as a run of consecutive characters
    and which has channels in the wanted direction; it raises exactly when
    the list has no such device.  When the wanted name lowers to the empty
    string the channel count alone decides. *)
Theorem find_device_index_is_first_usable
  (str_lower : pystr -> pystr)
  (wanted : pystr) (is_input : bool) (devs : list Device) :
  (forall i,
      find_device_index str_lower wanted is_input devs = Some i
      <-> (exists d, nth_error devs i = Some d
                     /\ usable str_lower wanted is_input d = true)
          /\ (forall j d, (j < i)%nat -> nth_error devs j = Some d ->
                          usable str_lower wanted is_input d = false))
  /\ (find_device_index str_lower wanted is_input devs = None
      <-> forall d, In d devs -> usable str_lower wanted is_input d = false)
  /\ (forall d,
         usable str_lower wanted is_input d = true
         <-> (exists pre post,
                 str_lower (name d) = pre ++ str_lower wanted ++ post)
             /\ (0 < (if is_input then max_input_channels d
                      else max_output_channels d))%Z)
  /\ (str_lower wanted = [] ->
      forall d,
        usable str_lower wanted is_input d
        = (if is_input then (0 <? max_input_channels d)%Z
           else (0 <? max_output_channels d)%Z)).
Proof.
  unfold find_device_index. split; [|split; [|split]].
  - intro i. rewrite find_from_some. split.
    + intros (k & d & -> & Hn & Hu & Hmin). cbn [Nat.add]. split.
      * exists d. split; assumption.
      * exact Hmin.
    + intros [(d & Hn & Hu) Hmin]. exists i, d. repeat split; assumption.
  - apply find_from_none.
  - intro d. unfold usable. rewrite andb_true_iff, contains_spec.
    destruct is_input; rewrite Z.ltb_lt; reflexivity.
  - intros E d. unfold usable. rewrite E.
    destruct (str_lower (name d)); reflexivity.
Qed.

(** Three sound cards with names of ASCII characters; only the third has
    an input whose name matches, only the second such an output; with an
    empty wanted name the first card is taken. *)
Lemma find_device_index_is_first_usable_witness :
  let devs := [ {| name := ascii_text "HDA Intel PCH";
                   max_input_channels := 2; max_output_channels := 2 |};
                {| name := ascii_text "USB Audio CODEC: out";
                   max_input_channels := 0; max_output_channels := 2 |};
                {| name := ascii_text "usb audio codec: in";
                   max_input_channels := 1; max_output_channels := 0 |} ] in
  let wanted := ascii_text "USB Audio CODEC" in
  find_device_index ascii_lower wanted true devs = Some 2%nat
  /\ find_device_index ascii_lower wanted false devs = Some 1%nat
  /\ (ascii_lower [] = []
      /\ usable ascii_lower [] true
           {| name := ascii_text "HDA Intel PCH";
              max_input_channels := 2; max_output_channels := 2 |} = true).
Proof.
  intros devs wanted. split; [|split].
  - apply (proj1 (find_device_index_is_first_usable
                    ascii_lower wanted true devs)). split.
    + eexists. split; reflexivity.
    + intros [|[|j]] d Hj Hd; [| |lia]; injection Hd as <-; reflexivity.
  - apply (proj1 (find_device_index_is_first_usable
                    ascii_lower wanted false devs)). split.
    + eexists. split; reflexivity.
    + intros [|j] d Hj Hd; [|lia]. injection Hd as <-. reflexivity.
  - split; [reflexivity|].
    rewrite (proj2 (proj2 (proj2 (find_device_index_is_first_usable
                                    ascii_lower [] true devs)))
               eq_refl).
    reflexivity.
Defined.

Lemma ptt_line_app line a b :
  ptt_line line (a ++ b) = ptt_line (ptt_line line a) b.
Proof. apply fold_left_app. Qed.

Lemma ptt_alternates_app a :
  forall line b,
    ptt_alternates line (a ++ b)
    = ptt_alternates line a && ptt_alternates (ptt_line line a) b.
Proof.
  induction a as [|e a IH]; intros line b; [reflexivity|].
  destruct e; cbn [app ptt_alternates]; rewrite IH;
    unfold ptt_line; cbn [fold_left];
    rewrite ?andb_assoc; reflexivity.
Qed.

Lemma start_tx_line now ok g :
  let r := start_tx now ok g in
  ptt_line (is_transmitting g) (snd r) = is_transmitting (fst r)
  /\ ptt_alternates (is_transmitting g) (snd r) = true.
Proof.
  destruct g as [tr lk alive lvl]. destruct tr, alive, ok; split; reflexivity.
Qed.

Lemma worker_line T now ok g :
  let r := _worker T now ok g in
  ptt_line (is_transmitting g) (snd r) = is_transmitting (fst r)
  /\ ptt_alternates (is_transmitting g) (snd r) = true.
Proof.
  destruct g as [tr lk alive lvl]. unfold _worker.
  cbn [is_transmitting last_key_time].
  destruct tr; cbn [andb]; [|split; reflexivity].
  destruct (Qle_bool T (now - lk)); destruct ok; split; reflexivity.
Qed.

Lemma play_line T hw l :
  forall g,
    let r := play T hw l g in
    ptt_line (is_transmitting g) (map snd (snd r)) = is_transmitting (fst r)
    /\ ptt_alternates (is_transmitting g) (map snd (snd r)) = true.
Proof.
  induction l as [|ta l IH]; intro g; [split; reflexivity|].
  cbn zeta. cbn [play].
  assert (Hact : ptt_line (is_transmitting g) (snd (act T hw ta g))
                 = is_transmitting (fst (act T hw ta g))
                 /\ ptt_alternates (is_transmitting g)
                      (snd (act T hw ta g)) = true).
  { unfold act. destruct (snd ta); [apply start_tx_line | apply worker_line]. }
  destruct (act T hw ta g) as [g1 e1]. cbn [fst snd] in Hact.
  specialize (IH g1). cbn zeta in IH.
  destruct (play T hw l g1) as [g2 e2]. cbn [fst snd] in IH |- *.
  destruct Hact as [Hl1 Ha1]. destruct IH as [Hl2 Ha2].
  rewrite map_app, map_map. cbn [snd]. rewrite map_id.
  rewrite ptt_line_app, ptt_alternates_app, Hl1, Ha1, Hl2, Ha2.
  split; reflexivity.
Qed.

(** X13.  Whatever key requests and tail-hang checks run, in whatever
    order and at whatever times, [is_transmitting] always equals the state
    the PTT line was last commanded to; [ptt.key()] is only ever called on a
    released line and [ptt.unkey()] on a keyed one, so the two calls
    alternate, beginning with a key. *)
Theorem gate_state_tracks_ptt_line
  (TAIL_HANG : Q) (hw_ok : Q -> bool) (l : list (Q * Action)) :
  let r := play TAIL_HANG hw_ok l init in
  ptt_line false (map snd (snd r)) = is_transmitting (fst r)
  /\ ptt_alternates false (map snd (snd r)) = true.
Proof. exact (play_line TAIL_HANG hw_ok l init). Qed.

(** X14.  When the program exits through the [finally] clause of [main]
    after any run of key requests and tail-hang checks, the last command
    given to the PTT line is an unkey (or the line was never keyed), and the
    exit handler never unkeys a line that is already released. *)
Theorem exit_handler_releases_ptt_line
  (TAIL_HANG : Q) (hw_ok : Q -> bool) (l : list (Q * Action))
  (has_mumble has_rx rx_stop_ok : bool) :
  let r := play TAIL_HANG hw_ok l init in
  let calls := map snd (snd r)
               ++ gate_calls (main_finally has_mumble has_rx rx_stop_ok
                                (fst r)) in
  ptt_line false calls = false
  /\ ptt_alternates false calls = true.
Proof.
  intros r calls. subst calls.
  destruct (play_line TAIL_HANG hw_ok l init) as [Hl Ha]. fold r in Hl, Ha.
  change (is_transmitting init) with false in Hl, Ha.
  rewrite ptt_line_app, ptt_alternates_app, Hl, Ha.
  unfold main_finally.
  destruct (is_transmitting (fst r)), has_mumble, has_rx, rx_stop_ok;
    split; reflexivity.
Qed.

Lemma insert_action_In t a l x :
  In x (insert_action t a l) <-> x = (t, a) \/ In x l.
Proof.
  induction l as [|[t' a'] l IH]; cbn [insert_action].
  - cbn. intuition.
  - destruct (Qle_bool t t'); cbn [In]; [intuition|].
    rewrite IH. intuition.
Qed.

Lemma Qle_bool_lt_false (x y : Q) : y < x -> Qle_bool x y = false.
Proof.
  intro H. destruct (Qle_bool x y) eqn:E; [|reflexivity].
  apply Qle_bool_iff in E. exfalso. apply (Qlt_not_le _ _ H E).
Qed.

Lemma Qle_bool_le_true (x y : Q) : x <= y -> Qle_bool x y = true.
Proof. intro H. apply Qle_bool_iff. exact H. Qed.

Section OneKeyOneUnkey.

Variable hw_ok : Q -> bool.
Variables T k u late : Q.
Hypothesis k_le_u : k <= u.
Hypothesis T_nonneg : 0 <= T.
Hypothesis late_nonneg : 0 <= late.

(** X16.  One key request at [k] and one unkey request at [u >= k], with
    any tail-hang [T >= 0] and a check that wakes [late >= 0] after its
    sleep: [ptt.key()] is called once, at [k], and [ptt.unkey()] once, at
    [u + T + late]; the gate is idle before [k], keyed from [k] until the
    unkey and idle from then on. *)
Theorem key_then_unkey_holds_for_the_tail :
  let reqs := [(k, http_ptt_on); (u, http_ptt_off late)] in
  let c := u + T + late in
  key_times T hw_ok reqs = [k]
  /\ unkey_times T hw_ok reqs = [c]
  /\ (forall t, t < k -> is_transmitting (globals_at T hw_ok reqs t) = false)
  /\ (forall t, k <= t -> t < c ->
        is_transmitting (globals_at T hw_ok reqs t) = true)
  /\ (forall t, c <= t ->
        is_transmitting (globals_at T hw_ok reqs t) = false).
Proof.
  intros reqs c.
  assert (Hag : agenda T reqs = [(k, RunStartTx); (c, RunTailCheck)]).
  { subst reqs c. cbn [agenda insert_action stop_tx_after_tail].
    rewrite Qle_bool_le_true by lra. reflexivity. }
  assert (Hchk : Qle_bool T (c - k) = true)
    by (apply Qle_bool_le_true; subst c; lra).
  assert (Hrun : play T hw_ok [(k, RunStartTx); (c, RunTailCheck)] init
                 = ({| is_transmitting := false; last_key_time := k;
                       tx_thread_alive := true;
                       current_tx_dbfs := -(100) |},
                    map (fun e => (k, e))
                      ([Log (log_info "TX ON"); PttKey]
                       ++ (if hw_ok k then []
                           else [Log (log_error "PTT key() failed")])
                       ++ [StartPlayLoop])
                    ++ map (fun e => (c, e))
                         ([Log (log_info "TX OFF (tail hang)"); PttUnkey]
                          ++ (if hw_ok c then []
                              else [Log (log_error "PTT unkey() failed")])))).
  { cbn [play act fst snd]. unfold start_tx, _worker, audio_tx_loop.
    cbn [init is_transmitting tx_thread_alive last_key_time negb andb
           set_is_transmitting set_tx_thread_alive set_last_key_time
           current_tx_dbfs].
    rewrite Hchk. cbn [andb]. rewrite app_nil_r, <- app_assoc. reflexivity. }
  split; [|split; [|split; [|split]]].
  - unfold key_times. rewrite Hag, Hrun. cbn [snd].
    destruct (hw_ok k), (hw_ok c); reflexivity.
  - unfold unkey_times. rewrite Hag, Hrun. cbn [snd].
    destruct (hw_ok k), (hw_ok c); reflexivity.
  - intros t Ht. unfold globals_at. rewrite Hag. cbn [filter fst].
    rewrite (Qle_bool_lt_false Ht).
    rewrite Qle_bool_lt_false by (subst c; lra). reflexivity.
  - intros t Ht0 Ht1. unfold globals_at. rewrite Hag. cbn [filter fst].
    rewrite (Qle_bool_le_true Ht0), (Qle_bool_lt_false Ht1).
    cbn [play act fst snd]. unfold start_tx, audio_tx_loop. reflexivity.
  - intros t Ht. unfold globals_at. rewrite Hag. cbn [filter fst].
    rewrite (Qle_bool_le_true Ht).
    rewrite Qle_bool_le_true by (subst c; lra).
    rewrite Hrun. reflexivity.
Qed.

End OneKeyOneUnkey.

Section LateCheck.

Variable hw_ok : Q -> bool.
Variables T k0 u k late : Q.
Hypothesis k0_le_u : k0 <= u.
Hypothesis u_le_k : u <= k.
Hypothesis T_pos : 0 < T.
Hypothesis check_late : k - u <= late.

(** X17.  A key request that comes after the unkey request does not
    always cancel the pending check.  When the check wakes late by at least
    the time between the unkey request and the new key request, it finds the
    key request a full tail-hang old: it unkeys, and the gate stays idle
    although the last request was a key. *)
Theorem late_check_unkeys_after_rekey :
  let reqs := [(k0, http_ptt_on); (u, http_ptt_off late);
               (k, http_ptt_on)] in
  let c := u + T + late in
  agenda T reqs = [(k0, RunStartTx); (k, RunStartTx); (c, RunTailCheck)]
  /\ k < c
  /\ unkey_times T hw_ok reqs = [c]
  /\ (forall t, c <= t ->
        is_transmitting (globals_at T hw_ok reqs t) = false).
Proof.
  intros reqs c.
  assert (Hkc : k < c) by (subst c; lra).
  assert (Hag : agenda T reqs
                = [(k0, RunStartTx); (k, RunStartTx); (c, RunTailCheck)]).
  { subst reqs. cbn [agenda insert_action stop_tx_after_tail]. fold c.
    rewrite (Qle_bool_lt_false Hkc). cbn [insert_action].
    rewrite Qle_bool_le_true by lra. reflexivity. }
  assert (Hchk : Qle_bool T (c - k) = true)
    by (apply Qle_bool_le_true; subst c; lra).
  assert (Hrun : play T hw_ok
                   [(k0, RunStartTx); (k, RunStartTx); (c, RunTailCheck)] init
                 = ({| is_transmitting := false; last_key_time := k;
                       tx_thread_alive := true;
                       current_tx_dbfs := -(100) |},
                    map (fun e => (k0, e))
                      ([Log (log_info "TX ON"); PttKey]
                       ++ (if hw_ok k0 then []
                           else [Log (log_error "PTT key() failed")])
                       ++ [StartPlayLoop])
                    ++ map (fun e => (c, e))
                         ([Log (log_info "TX OFF (tail hang)"); PttUnkey]
                          ++ (if hw_ok c then []
                              else [Log (log_error "PTT unkey() failed")])))).
  { cbn [play act fst snd]. unfold start_tx, _worker, audio_tx_loop.
    cbn [init is_transmitting tx_thread_alive last_key_time negb andb
           set_is_transmitting set_tx_thread_alive set_last_key_time
           current_tx_dbfs map app].
    rewrite Hchk. destruct (hw_ok k0), (hw_ok c); reflexivity. }
  split; [exact Hag|]. split; [exact Hkc|]. split.
  - unfold unkey_times. rewrite Hag, Hrun. cbn [snd].
    destruct (hw_ok k0), (hw_ok c); reflexivity.
  - intros t Ht. unfold globals_at. rewrite Hag. cbn [filter fst].
    rewrite (Qle_bool_le_true Ht).
    rewrite (@Qle_bool_le_true k t) by lra.
    rewrite (@Qle_bool_le_true k0 t) by lra.
    rewrite Hrun. reflexivity.
Qed.

End LateCheck.

Lemma agenda_unkey_only T reqs :
  (forall t r, In (t, r) reqs -> exists late, r = http_ptt_off late) ->
  forall x, In x (agenda T reqs) -> snd x = RunTailCheck.
Proof.
  induction reqs as [|[t [|late]] r IH]; intros H x Hx.
  - destruct Hx.
  - destruct (H t http_ptt_on (in_eq _ _)) as [late E]. discriminate.
  - cbn [agenda stop_tx_after_tail] in Hx. apply insert_action_In in Hx.
    destruct Hx as [->|Hx]; [reflexivity|].
    apply IH; [|exact Hx]. intros t' r' Hr. apply (H t' r'). right. exact Hr.
Qed.

Lemma play_checks_on_idle T hw l :
  forall g,
    is_transmitting g = false ->
    (forall x, In x l -> snd x = RunTailCheck) ->
    play T hw l g = (g, []).
Proof.
  induction l as [|ta l IH]; intros g Hg H; [reflexivity|].
  cbn [play]. unfold act. rewrite (H ta (in_eq _ _)).
  unfold _worker. rewrite Hg. cbn [andb].
  rewrite IH; [reflexivity | exact Hg |].
  intros x Hx. apply H. right. exact Hx.
Qed.

(** X18.  Unkey requests on a gate that was never keyed do nothing at
    all: however many there are and whenever their checks run, no call
    reaches the PTT line, nothing is logged, and the globals stay as the
    module body left them. *)
Theorem unkey_requests_on_idle_gate_do_nothing
  (T : Q) (hw_ok : Q -> bool) (reqs : list (Q * Request)) :
  (forall t r, In (t, r) reqs -> exists late, r = http_ptt_off late) ->
  snd (play T hw_ok (agenda T reqs) init) = []
  /\ forall t, globals_at T hw_ok reqs t = init.
Proof.
  intro H. pose proof (agenda_unkey_only T reqs H) as Ha. split.
  - rewrite play_checks_on_idle; [reflexivity | reflexivity | exact Ha].
  - intro t. unfold globals_at.
    rewrite play_checks_on_idle; [reflexivity | reflexivity |].
    intros x Hx. apply filter_In in Hx. apply Ha. exact (proj1 Hx).
Qed.

(** Key at 2, unkey request at 5, half a second of tail, a check that
    wakes a tenth of a second late. *)
Lemma key_then_unkey_holds_for_the_tail_witness :
  (2 <= 5 /\ 0 <= 1 # 2 /\ 0 <= 1 # 10)
  /\ unkey_times (1 # 2) (fun _ => true)
       [(2, http_ptt_on); (5, http_ptt_off (1 # 10))]
     = [5 + (1 # 2) + (1 # 10)].
Proof.
  assert (H1 : 2 <= 5) by (unfold Qle; simpl; lia).
  assert (H2 : 0 <= 1 # 2) by (unfold Qle; simpl; lia).
  assert (H3 : 0 <= 1 # 10) by (unfold Qle; simpl; lia).
  split; [repeat split; assumption|].
  exact (proj1 (proj2 (key_then_unkey_holds_for_the_tail
                         (fun _ => true) H1 H2 H3))).
Defined.

(** Key at 0, unkey request at 0.5, key again at 0.6, and a check that
    wakes 0.2 s late, at 1.45. *)
Lemma late_check_unkeys_after_rekey_witness :
  (0 <= 1 # 2 /\ 1 # 2 <= 6 # 10 /\ 0 < 3 # 4
   /\ (6 # 10) - (1 # 2) <= 2 # 10)
  /\ unkey_times (3 # 4) (fun _ => true)
       [(0, http_ptt_on); (1 # 2, http_ptt_off (2 # 10));
        (6 # 10, http_ptt_on)]
     = [(1 # 2) + (3 # 4) + (2 # 10)].
Proof.
  assert (H1 : 0 <= 1 # 2) by (unfold Qle; simpl; lia).
  assert (H2 : 1 # 2 <= 6 # 10) by (unfold Qle; simpl; lia).
  assert (H3 : 0 < 3 # 4) by reflexivity.
  assert (H4 : (6 # 10) - (1 # 2) <= 2 # 10) by (unfold Qle; simpl; lia).
  split; [repeat split; assumption|].
  exact (proj1 (proj2 (proj2 (late_check_unkeys_after_rekey
                                (fun _ => true) H1 H2 H3 H4)))).
Defined.

(** Two unkey requests and nothing else. *)
Lemma unkey_requests_on_idle_gate_do_nothing_witness :
  let reqs := [(1, http_ptt_off 0); (2, http_ptt_off (1 # 4))] in
  (forall t r, In (t, r) reqs -> exists late, r = http_ptt_off late)
  /\ snd (play (3 # 4) (fun _ => true) (agenda (3 # 4) reqs) init) = [].
Proof.
  intro reqs.
  assert (H : forall t r, In (t, r) reqs ->
                          exists late, r = http_ptt_off late).
  { intros t r [E|[E|[]]]; injection E as _ <-; eexists; reflexivity. }
  split; [exact H|].
  exact (proj1 (unkey_requests_on_idle_gate_do_nothing
                  (3 # 4) (fun _ => true) reqs H)).
Defined.

(** X19.  An iteration of the playback loop goes on to the next one only
    when the gate is keyed and no audio arrived (no frame, or an empty
    one).  In every other case the loop is over: the output stream is
    closed and the thread is no longer alive.  When the gate is idle the
    iteration takes nothing from the receive queue and writes nothing. *)
Theorem playback_goes_on_only_on_silence (CHUNK : Z) (p : Player) :
  (snd (play_loop_iter CHUNK p) = Next
   <-> is_transmitting (pl_globals p) = true
       /\ (fst (MumbleBridge.get_received (pl_bridge p)) = None
           \/ fst (MumbleBridge.get_received (pl_bridge p)) = Some []))
  /\ (snd (play_loop_iter CHUNK p) <> Next ->
      pl_stream_open (fst (play_loop_iter CHUNK p)) = false
      /\ tx_thread_alive (pl_globals (fst (play_loop_iter CHUNK p))) = false)
  /\ (is_transmitting (pl_globals p) = false ->
      play_loop_iter CHUNK p = (close_stream p, Break)).
Proof.
  unfold play_loop_iter.
  destruct (is_transmitting (pl_globals p)) eqn:K; cbn [negb].
  - destruct (MumbleBridge.get_received (pl_bridge p)) as [[[|x r]|] b];
      cbn [fst snd].
    + intuition congruence.
    + destruct (frombuffer_int16 (x :: r)); cbn [fst snd];
        intuition (try congruence; try discriminate).
    + intuition congruence.
  - cbn [fst snd]. intuition (try congruence; try discriminate).
Qed.

Lemma start_tx_all_keyed (calls : list (Q * bool)) :
  forall g,
    is_transmitting g = true ->
    snd (start_tx_all calls g) = []
    /\ is_transmitting (fst (start_tx_all calls g)) = true
    /\ tx_thread_alive (fst (start_tx_all calls g)) = tx_thread_alive g.
Proof.
  induction calls as [|[now ok] r IH]; intros g Hk; cbn [start_tx_all].
  - repeat split; [exact Hk].
  - assert (E : start_tx now ok g = (set_last_key_time g now, []))
      by (unfold start_tx; rewrite Hk; reflexivity).
    rewrite E.
    destruct (IH (set_last_key_time g now) Hk) as (He & Ht & Ha).
    destruct (start_tx_all r (set_last_key_time g now)) as [g2 e2].
    cbn [fst snd] in *. subst e2. repeat split; assumption.
Qed.

(** X20.  What a key request finds after the tail-hang check has unkeyed
    depends on how far the playback thread is.  Before the thread's next
    look at the gate: no playback thread is started, and the look finds
    the gate keyed, so the loop does not break there.  After the thread
    has ended: a new playback thread is started.  Between the look, which
    found the gate idle, and the end of the thread: no playback thread is
    started, because the old one is still alive; when that one has ended
    the gate is keyed and no playback thread is alive, and further key
    requests, however many, start none. *)
Theorem rekey_races_with_the_end_of_playback
  (T now now' : Q) (ok ok' : bool) (g : Globals) (later : list (Q * bool)) :
  is_transmitting g = true ->
  tx_thread_alive g = true ->
  T <= now - last_key_time g ->
  let idle := fst (_worker T now ok g) in
  let rekeyed := fst (start_tx now' ok' idle) in
  let silent := play_loop_ended rekeyed in
  (is_transmitting idle = false /\ play_loop_look idle = false)
  /\ (~ In StartPlayLoop (snd (start_tx now' ok' idle))
      /\ play_loop_look rekeyed = true)
  /\ In StartPlayLoop (snd (start_tx now' ok' (play_loop_ended idle)))
  /\ (is_transmitting silent = true
      /\ tx_thread_alive silent = false
      /\ snd (start_tx_all later silent) = []
      /\ is_transmitting (fst (start_tx_all later silent)) = true
      /\ tx_thread_alive (fst (start_tx_all later silent)) = false).
Proof.
  intros Hk Ha Hd idle rekeyed silent.
  assert (Hidle : idle = set_is_transmitting g false).
  { subst idle. unfold _worker. rewrite Hk.
    rewrite (Qle_bool_le_true Hd). reflexivity. }
  assert (Hre : snd (start_tx now' ok' idle)
                = [Log (log_info "TX ON"); PttKey]
                  ++ (if ok' then [] else [Log (log_error "PTT key() failed")])
                /\ is_transmitting rekeyed = true).
  { subst rekeyed. rewrite Hidle. unfold start_tx, audio_tx_loop.
    cbn [set_is_transmitting is_transmitting tx_thread_alive negb].
    rewrite Ha. cbn. rewrite app_nil_r. split; reflexivity. }
  destruct Hre as [Heff Hrk].
  split; [rewrite Hidle; split; reflexivity|]. split; [|split].
  - split; [|exact Hrk].
    rewrite Heff. destruct ok'; cbn; intuition discriminate.
  - rewrite Hidle. unfold start_tx, audio_tx_loop, play_loop_ended.
    cbn [set_tx_thread_alive set_is_transmitting is_transmitting
           tx_thread_alive negb].
    destruct ok'; cbn; intuition.
  - assert (Hs : is_transmitting silent = true) by exact Hrk.
    assert (Hsa : tx_thread_alive silent = false) by reflexivity.
    destruct (@start_tx_all_keyed later silent Hs) as (He & Ht & Hal).
    rewrite Hsa in Hal. repeat split; assumption.
Qed.

(** The gate keyed at 0 with its playback thread, a tail-hang check at 1,
    a key request at 2 whose [ptt.key()] works, then two more at 3 and
    4. *)
Lemma rekey_races_with_the_end_of_playback_witness :
  let g := fst (start_tx 0 true init) in
  let keyed := fst (start_tx 2 true (fst (_worker (3 # 4) 1 true g))) in
  (is_transmitting g = true
   /\ tx_thread_alive g = true
   /\ 3 # 4 <= 1 - last_key_time g)
  /\ ~ In StartPlayLoop (snd (start_tx 2 true (fst (_worker (3 # 4) 1 true g))))
  /\ start_tx_all [(3, true); (4, false)] (play_loop_ended keyed)
     = ({| is_transmitting := true; last_key_time := 4;
           tx_thread_alive := false; current_tx_dbfs := -(100) |}, []).
Proof.
  intros g keyed.
  assert (H1 : is_transmitting g = true) by reflexivity.
  assert (H2 : tx_thread_alive g = true) by reflexivity.
  assert (H3 : 3 # 4 <= 1 - last_key_time g) by (unfold Qle; simpl; lia).
  split; [repeat split; assumption|].
  destruct (@rekey_races_with_the_end_of_playback
              (3 # 4) 1 2 true true g [(3, true); (4, false)] H1 H2 H3)
    as (_ & [Ha _] & _ & _).
  split; [exact Ha | reflexivity].
Defined.

Lemma nth_error_replace_nth {A} (l : list A) :
  forall i j x,
    nth_error (replace_nth i x l) j
    = if (j =? i)%nat
      then match nth_error l j with Some _ => Some x | None => None end
      else nth_error l j.
Proof.
  induction l as [|y l IH]; intros i j x.
  - destruct i, j; cbn; try reflexivity; destruct (j =? i)%nat; reflexivity.
  - destruct i as [|i], j as [|j]; cbn [replace_nth nth_error]; try reflexivity.
    rewrite IH. reflexivity.
Qed.

(** What one step of thread [i] does to the lock, given that the lock
    agreed with where the thread stood. *)
Lemma thread_step_lock i th g lock th' g' lock' e :
  thread_step i th g lock = Some (th', g', lock', e) ->
  (in_critical th = true <-> lock = Some i) ->
  (in_critical th' = true <-> lock' = Some i)
  /\ (forall j, j <> i -> (lock' = Some j <-> lock = Some j)).
Proof.
  intros Hs Hd.
  assert (Hfree : in_critical th = false -> lock <> Some i)
    by (intros E L; apply Hd in L; congruence).
  assert (Hheld : in_critical th = true -> lock = Some i) by apply Hd.
  destruct th as [now pc|now ok pc|T now ok pc]; destruct pc;
    cbn [thread_step] in Hs;
    repeat match type of Hs with
           | context [match ?x with _ => _ end] => destruct x eqn:?
           | context [if ?x then _ else _] => destruct x eqn:?
           end;
    try discriminate; injection Hs as <- <- <- <-;
    cbn [in_critical status_in_lock start_in_lock] in *;
    try (specialize (Hheld eq_refl)); try (specialize (Hfree eq_refl));
    subst;
    (split; [split; intro; try reflexivity; try congruence
            | intros j Hj; split; intro; congruence]).
Qed.

Lemma sched_step_discipline c i :
  lock_discipline c -> lock_discipline (sched_step c i).
Proof.
  intro H. unfold sched_step.
  destruct (nth_error (cfg_threads c) i) as [th|] eqn:Hth; [|exact H].
  destruct (thread_step i th (cfg_globals c) (cfg_lock c))
    as [[[[th' g'] lock'] e]|] eqn:Hs; [|exact H].
  destruct (@thread_step_lock _ _ _ _ _ _ _ _ Hs (H i th Hth)) as [Hi Hj].
  intros j thj. cbn [cfg_threads cfg_lock].
  rewrite nth_error_replace_nth.
  destruct (Nat.eqb_spec j i) as [->|Hne].
  - rewrite Hth. intro E. injection E as <-. exact Hi.
  - intro Hn. rewrite (Hj j Hne). exact (H j thj Hn).
Qed.

Lemma exec_discipline sched :
  forall c, lock_discipline c -> lock_discipline (exec c sched).
Proof.
  induction sched as [|i r IH]; intros c H; [exact H|].
  cbn [exec fold_left]. apply IH, sched_step_discipline, H.
Qed.

(** X21.  Mutual exclusion under [tx_lock], for any number of concurrent
    [http_status], [start_tx] and tail-hang threads and any interleaving of
    their steps: from a state where the lock agrees with who is inside a
    critical section, it always does, so no two threads are ever inside
    their critical sections at once. *)
Theorem critical_sections_never_overlap (c : Config) (sched : list nat) :
  lock_discipline c ->
  lock_discipline (exec c sched)
  /\ forall i j thi thj,
       nth_error (cfg_threads (exec c sched)) i = Some thi ->
       nth_error (cfg_threads (exec c sched)) j = Some thj ->
       in_critical thi = true -> in_critical thj = true ->
       i = j.
Proof.
  intro H. pose proof (exec_discipline sched H) as Hd. split; [exact Hd|].
  intros i j thi thj Hi Hj Ci Cj.
  apply (Hd i thi Hi) in Ci. apply (Hd j thj Hj) in Cj. congruence.
Qed.

(** The two requests of [status_race], before either has taken a step. *)
Lemma critical_sections_never_overlap_witness :
  lock_discipline status_race
  /\ lock_discipline (exec status_race status_race_schedule).
Proof.
  assert (H : lock_discipline status_race).
  { intros [|[|i]] th Hn; cbn in Hn; try (destruct i; discriminate);
      injection Hn as <-; cbn; split; discriminate. }
  split; [exact H|].
  exact (proj1 (critical_sections_never_overlap status_race_schedule H)).
Defined.

Lemma thread_step_outside_lock i th g lock th' g' lock' e :
  thread_step i th g lock = Some (th', g', lock', e) ->
  in_critical th = false \/ (exists now pc, th = Status now pc) ->
  g' = g /\ e = [].
Proof.
  intros Hs Ho.
  destruct th as [now pc|now ok pc|T now ok pc]; destruct pc;
    cbn [thread_step] in Hs;
    repeat match type of Hs with
           | context [match ?x with _ => _ end] => destruct x eqn:?
           | context [if ?x then _ else _] => destruct x eqn:?
           end;
    try discriminate; injection Hs as <- <- <- <-;
    try (split; reflexivity);
    destruct Ho as [Ho|(n & p & Ho)]; discriminate.
Qed.

(** X22.  In [start_tx], in the tail-hang worker once its sleep is over
    and in [http_status], every write to a global and every call on the
    log, on the PTT line and on the playback thread starter is made by
    the thread that holds [tx_lock]: a step of one of these threads that
    does not hold it changes neither the globals nor the calls made so
    far, and [http_status] never does, lock or no lock.  (The playback
    loop and the thread start of [stop_tx_after_tail] are no steps of
    these three.) *)
Theorem gate_is_written_only_under_lock (c : Config) (i : nat) :
  lock_discipline c ->
  cfg_lock c <> Some i
  \/ (exists now pc, nth_error (cfg_threads c) i = Some (Status now pc)) ->
  cfg_globals (sched_step c i) = cfg_globals c
  /\ cfg_effects (sched_step c i) = cfg_effects c.
Proof.
  intros Hd Ho. unfold sched_step.
  destruct (nth_error (cfg_threads c) i) as [th|] eqn:Hth;
    [|split; reflexivity].
  destruct (thread_step i th (cfg_globals c) (cfg_lock c))
    as [[[[th' g'] lock'] e]|] eqn:Hs; [|split; reflexivity].
  cbn [cfg_globals cfg_effects].
  assert (Hout : in_critical th = false
                 \/ (exists now pc, th = Status now pc)).
  { destruct Ho as [Ho|(now & pc & E)].
    - left. destruct (in_critical th) eqn:C; [|reflexivity].
      apply (Hd i th Hth) in C. contradiction.
    - right. exists now, pc. congruence. }
  destruct (@thread_step_outside_lock _ _ _ _ _ _ _ _ Hs Hout) as [-> ->].
  rewrite app_nil_r. split; reflexivity.
Qed.

(** While [start_tx] holds the lock in the middle of its critical section,
    a step of [http_status] changes nothing. *)
Lemma gate_is_written_only_under_lock_witness :
  let c := exec status_race [1; 1; 1; 1]%nat in
  (lock_discipline c /\ cfg_lock c <> Some 0%nat)
  /\ cfg_globals (sched_step c 0) = cfg_globals c
  /\ cfg_effects (sched_step c 0) = cfg_effects c.
Proof.
  intro c.
  assert (H0 : lock_discipline status_race).
  { intros [|[|i]] th Hn; cbn in Hn; try (destruct i; discriminate);
      injection Hn as <-; cbn; split; discriminate. }
  assert (H1 : lock_discipline c) by exact (@exec_discipline _ _ H0).
  assert (H2 : cfg_lock c <> Some 0%nat) by discriminate.
  split; [split; assumption|].
  exact (@gate_is_written_only_under_lock c 0%nat H1 (or_introl H2)).
Defined.

End TrxOpsFacts.
